(** * changelist.py: EDL change list generator

    A shallow embedding of [src/changelist.py] and the properties of its
    timecode codec, EDL parser, positional comparator and change-list
    renderer.

    Conventions of the embedding.
    - A Python [str] is a [string]; a character is a code point in
      U+0000..U+00FF ([ascii]).  Over that range Python's whitespace
      ([str.isspace], used by [strip], [split] and [int]) and decimal
      digits ([\d], [int]) are the sets [is_space] and [is_digit] below.
    - A Python [int] is a [Z]; [//] and [%] are [Z.div] and [Z.modulo]
      (floor division, remainder with the sign of the divisor), with
      [ZeroDivisionError] written out for a zero divisor.  CPython's
      configurable cap on the number of digits of an int/str conversion is
      not modelled.
    - A raised exception is the [Raise] branch of [result]; only the class
      of the exception is kept.
    - A [dict] with string keys is a [gmap string value]. *)

From stdpp Require Import base numbers option list strings pretty gmap.
From Stdlib Require Import Ascii ZArith Lia.

Local Open Scope Z_scope.

(** ** Exceptions *)

Inductive exn : Type :=
  | ValueError
  | IndexError
  | KeyError
  | TypeError
  | AttributeError
  | ZeroDivisionError
  | FileNotFoundError.

Inductive result (A : Type) : Type :=
  | Ok (a : A)
  | Raise (e : exn).
Arguments Ok {A} a.
Arguments Raise {A} e.

Definition result_bind {A B} (f : A → result B) (m : result A) : result B :=
  match m with
  | Ok a => f a
  | Raise e => Raise e
  end.

#[global] Instance result_mbind : MBind result := @result_bind.
#[global] Instance result_mret : MRet result := @Ok.

#[global] Instance exn_eq_dec : EqDecision exn.
Proof. solve_decision. Defined.

(** ** Python runtime: characters and strings *)

Module Py.

Definition tab : string := String "009"%char "".
Definition nl : string := String "010"%char "".

Definition code (c : ascii) : N := N_of_ascii c.

(** [str.isspace] on U+0000..U+00FF: TAB, LF, VT, FF, CR, the four
    separators FS..US, SPACE, NEL and NBSP. *)
Definition is_space (c : ascii) : bool :=
  let n := code c in
  ((9 <=? n) && (n <=? 13) || (28 <=? n) && (n <=? 32)
   || (n =? 133) || (n =? 160))%N.

(** [\d] / decimal digits on U+0000..U+00FF. *)
Definition is_digit (c : ascii) : bool :=
  let n := code c in ((48 <=? n) && (n <=? 57))%N.

Definition digit_val (c : ascii) : Z := Z.of_N (code c) - 48.

Fixpoint lstrip (s : string) : string :=
  match s with
  | "" => ""
  | String c r => if is_space c then lstrip r else s
  end.

Fixpoint rstrip (s : string) : string :=
  match s with
  | "" => ""
  | String c r =>
      match rstrip r with
      | "" => if is_space c then "" else String c ""
      | r' => String c r'
      end
  end.

(** [s.strip()] *)
Definition strip (s : string) : string := rstrip (lstrip s).

(** [s.split()]: maximal runs of non-whitespace characters, in order.
    [cur] is the field being scanned. *)
Fixpoint split_go (cur : string) (s : string) : list string :=
  match s with
  | "" => if decide (cur = "") then [] else [cur]
  | String c r =>
      if is_space c
      then (if decide (cur = "") then split_go "" r else cur :: split_go "" r)
      else split_go (cur +:+ String c "") r
  end.

Definition split (s : string) : list string := split_go "" s.

(** [s.split(sep)] for a one-character separator: every occurrence
    splits, empty fields are kept. *)
Fixpoint split_on_go (sep : ascii) (cur : string) (s : string)
  : list string :=
  match s with
  | "" => [cur]
  | String c r =>
      if Ascii.eqb c sep
      then cur :: split_on_go sep "" r
      else split_on_go sep (cur +:+ String c "") r
  end.

Definition split_on (sep : ascii) (s : string) : list string :=
  split_on_go sep "" s.

(** The digits of an integer literal, after the sign: decimal digits with
    single underscores allowed between digits.  [prev] records whether
    the previous character was a digit. *)
Fixpoint int_digits (prev : bool) (acc : Z) (s : string) : option Z :=
  match s with
  | "" => if prev then Some acc else None
  | String c r =>
      if is_digit c then int_digits true (acc * 10 + digit_val c) r
      else if Ascii.eqb c "_"%char
           then (if prev then int_digits false acc r else None)
           else None
  end.

(** [int(s)] in base 10: surrounding whitespace is dropped, then an
    optional sign, then the digits. *)
Definition int (s : string) : result Z :=
  let t := strip s in
  let '(neg, body) :=
    match t with
    | String "-"%char r => (true, r)
    | String "+"%char r => (false, r)
    | _ => (false, t)
    end in
  match int_digits false 0 body with
  | Some n => Ok (if neg then - n else n)
  | None => Raise ValueError
  end.

(** [str(n)] and [f"{n}"] *)
Definition str (n : Z) : string := pretty n.

(** [f"{n:02d}"]: zero padded to width 2, the sign counted in the width. *)
Definition fmt02d (n : Z) : string :=
  if (0 <=? n) && (n <? 10) then "0" +:+ str n else str n.

(** [re.match(r'^\d{3,}', s)] as a truth value. *)
Definition match_event_number (s : string) : bool :=
  match s with
  | String a (String b (String c _)) => is_digit a && is_digit b && is_digit c
  | _ => false
  end.

(** [p] is a prefix of [s]: the rest of [s] after [p]. *)
Fixpoint strip_prefix (p s : string) : option string :=
  match p, s with
  | "", _ => Some s
  | String a p', String b s' =>
      if Ascii.eqb a b then strip_prefix p' s' else None
  | String _ _, "" => None
  end.

(** The longest prefix matched by [.+] or [.*]: everything up to the
    first line feed. *)
Fixpoint dot_star (s : string) : string :=
  match s with
  | "" => ""
  | String c r => if Ascii.eqb c "010"%char then "" else String c (dot_star r)
  end.

(** [re.search(lit + '(.+)', s)] for a literal [lit] without
    metacharacters: group 1 of the leftmost match, if any. *)
Fixpoint search_literal_dot_plus (lit : string) (s : string)
  : option string :=
  let here :=
    match strip_prefix lit s with
    | Some rest => match dot_star rest with "" => None | g => Some g end
    | None => None
    end in
  match here with
  | Some g => Some g
  | None =>
      match s with
      | "" => None
      | String _ r => search_literal_dot_plus lit r
      end
  end.

End Py.

(** ** Data model *)

Inductive ChangeType : Type :=
  | UNCHANGED
  | CHANGED
  | NEW
  | DELETED.

#[global] Instance ChangeType_eq_dec : EqDecision ChangeType.
Proof. solve_decision. Defined.

Record Edit : Type := mkEdit {
  event_num : string;
  reel : string;
  source_in : string;
  source_out : string;
  record_in : string;
  record_out : string;
  clip_name : string
}.

#[global] Instance Edit_eq_dec : EqDecision Edit.
Proof. solve_decision. Defined.

(** The values stored in a detail mapping: frame counts and strings. *)
Inductive value : Type :=
  | VInt (z : Z)
  | VStr (s : string).

#[global] Instance value_eq_dec : EqDecision value.
Proof. solve_decision. Defined.

(** A change record: [(type, old_edit, new_edit, details)]. *)
Record Change : Type := mkChange {
  c_type : ChangeType;
  c_old : option Edit;
  c_new : option Edit;
  c_details : gmap string value
}.

(** [Edit.key] *)
Definition key (self : Edit) : string * string * string :=
  (reel self, source_in self, source_out self).

(** ** Timecode codec *)

(** [a // b] and [a % b] on ints. *)
Definition floordiv (a b : Z) : result Z :=
  if decide (b = 0) then Raise ZeroDivisionError else Ok (a `div` b).

Definition pymod (a b : Z) : result Z :=
  if decide (b = 0) then Raise ZeroDivisionError else Ok (a `mod` b).

Fixpoint map_int (l : list string) : result (list Z) :=
  match l with
  | [] => Ok []
  | s :: r => n ← Py.int s; ns ← map_int r; Ok (n :: ns)
  end.

(** [parse_tc]: the 24 fps variant; every component is converted, the
    first four are used. *)
Definition parse_tc (tc_str : string) : result Z :=
  parts ← map_int (Py.split_on ":" tc_str);
  match parts with
  | p0 :: p1 :: p2 :: p3 :: _ => Ok (((p0 * 60 + p1) * 60 + p2) * 24 + p3)
  | _ => Raise IndexError
  end.

(** [tc_to_frames]: the unpacking [h, m, s, f = map(int, ...)] raises
    [ValueError] both for a component that is not an integer literal and
    for a number of components other than four. *)
Definition tc_to_frames (tc : string) (fps : Z) : result Z :=
  match Py.split_on ":" tc with
  | [c0; c1; c2; c3] =>
      h ← Py.int c0;
      m ← Py.int c1;
      s ← Py.int c2;
      f ← Py.int c3;
      Ok (((h * 60 + m) * 60 + s) * fps + f)
  | _ => Raise ValueError
  end.

Definition frames_to_tc (frames : Z) (fps : Z) : result string :=
  h ← floordiv frames (60 * 60 * fps);
  frames1 ← pymod frames (60 * 60 * fps);
  m ← floordiv frames1 (60 * fps);
  frames2 ← pymod frames1 (60 * fps);
  s ← floordiv frames2 fps;
  f ← pymod frames2 fps;
  Ok (Py.fmt02d h +:+ ":" +:+ Py.fmt02d m +:+ ":" +:+ Py.fmt02d s
      +:+ ":" +:+ Py.fmt02d f).

Definition subtract_tc (out_tc in_tc : string) (fps : Z) : result string :=
  a ← tc_to_frames out_tc fps;
  b ← tc_to_frames in_tc fps;
  frames_to_tc (a - b) fps.

(** [Edit.duration_tc] *)
Definition duration_tc (self : Edit) : result string :=
  subtract_tc (source_out self) (source_in self) 24.

(** ** EDL parser *)

Record EDLParser : Type := mkEDLParser { parser_fps : Z }.

Definition clip_name_marker : string := "* FROM CLIP NAME: ".

(** The clip name found on the line after an event line. *)
Definition lookahead_clip_name (lines : list string) (i : nat) : string :=
  match lines !! (i + 1)%nat with
  | Some next =>
      match Py.search_literal_dot_plus clip_name_marker (Py.strip next) with
      | Some name => name
      | None => ""
      end
  | None => ""
  end.

(** One iteration of the [while] loop of [parse], at index [i]. *)
Definition parse_iter (lines : list string) (edits : list Edit) (i : nat)
  : list Edit :=
  match lines !! i with
  | None => edits
  | Some raw =>
      let line := Py.strip raw in
      if Py.match_event_number line then
        match Py.split line with
        | p0 :: p1 :: _ :: _ :: p4 :: p5 :: p6 :: p7 :: _ =>
            edits ++ [mkEdit p0 p1 p4 p5 p6 p7 (lookahead_clip_name lines i)]
        | _ => edits
        end
      else edits
  end.

(** The loop of [parse] over the lines of the file: [i] runs from [0] to
    [len(lines) - 1]. *)
Definition parse_lines (self : EDLParser) (lines : list string) : list Edit :=
  foldl (parse_iter lines) [] (seq 0 (length lines)).

(** Text-mode reading: [\r\n] and [\r] become [\n]. *)
Fixpoint universal_newlines (s : string) : string :=
  match s with
  | "" => ""
  | String c r =>
      if Ascii.eqb c "013"%char then
        match r with
        | String c' r' =>
            if Ascii.eqb c' "010"%char
            then String "010"%char (universal_newlines r')
            else String "010"%char (universal_newlines r)
        | "" => String "010"%char ""
        end
      else String c (universal_newlines r)
  end.

(** [f.readlines()]: the lines of the text, each with its line feed. *)
Fixpoint readlines_go (cur : string) (s : string) : list string :=
  match s with
  | "" => if decide (cur = "") then [] else [cur]
  | String c r =>
      if Ascii.eqb c "010"%char
      then (cur +:+ Py.nl) :: readlines_go "" r
      else readlines_go (cur +:+ String c "") r
  end.

Definition readlines (content : string) : list string :=
  readlines_go "" (universal_newlines content).

(** [EDLParser.parse]: the file system maps a path to the text of the file. *)
Definition parse (self : EDLParser) (fs : gmap string string)
    (file_path : string) : result (list Edit) :=
  match fs !! file_path with
  | None => Raise FileNotFoundError
  | Some content => Ok (parse_lines self (readlines content))
  end.

(** ** Comparator *)

(** A [for] loop whose body may raise: the state is threaded through the
    iterations and the first exception ends the loop. *)
Fixpoint for_each {S I : Type} (body : S → I → result S) (items : list I)
    (st : S) : result S :=
  match items with
  | [] => Ok st
  | i :: rest => st' ← body st i; for_each body rest st'
  end.

Definition compute_trim_details (old_edit new_edit : Edit) (fps : Z)
  : result (gmap string value) :=
  old_src_in ← tc_to_frames (source_in old_edit) fps;
  old_src_out ← tc_to_frames (source_out old_edit) fps;
  new_src_in ← tc_to_frames (source_in new_edit) fps;
  new_src_out ← tc_to_frames (source_out new_edit) fps;
  old_rec_in ← tc_to_frames (record_in old_edit) fps;
  old_rec_out ← tc_to_frames (record_out old_edit) fps;
  new_rec_in ← tc_to_frames (record_in new_edit) fps;
  new_rec_out ← tc_to_frames (record_out new_edit) fps;
  let old_length := old_rec_out - old_rec_in in
  let new_length := new_rec_out - new_rec_in in
  let time_diff := new_length - old_length in
  let details : gmap string value :=
    <["new_source_out" := VStr (source_out new_edit)]>
    (<["old_source_out" := VStr (source_out old_edit)]>
    (<["new_source_in" := VStr (source_in new_edit)]>
    (<["old_source_in" := VStr (source_in old_edit)]>
    (<["new_length_frames" := VInt new_length]>
    (<["old_length_frames" := VInt old_length]>
    (<["time_diff_frames" := VInt time_diff]> ∅)))))) in
  let head_diff := new_src_in - old_src_in in
  let details : gmap string value :=
    if head_diff <? 0 then
      <["head_to" := VStr (source_in new_edit)]>
      (<["head_from" := VStr (source_in old_edit)]>
      (<["head_change" := VStr "extended"]> details))
    else if head_diff >? 0 then
      <["head_to" := VStr (source_in new_edit)]>
      (<["head_from" := VStr (source_in old_edit)]>
      (<["head_change" := VStr "trimmed"]> details))
    else details in
  let tail_diff := new_src_out - old_src_out in
  let details : gmap string value :=
    if tail_diff >? 0 then
      <["tail_to" := VStr (source_out new_edit)]>
      (<["tail_from" := VStr (source_out old_edit)]>
      (<["tail_change" := VStr "extended"]> details))
    else if tail_diff <? 0 then
      <["tail_to" := VStr (source_out new_edit)]>
      (<["tail_from" := VStr (source_out old_edit)]>
      (<["tail_change" := VStr "trimmed"]> details))
    else details in
  Ok details.

Definition clip_added : gmap string value :=
  {[ "description" := VStr "Clip added" ]}.

(** The body of the loop of [compare_edls] at index [i].  With both edits
    absent (which [i < max_len] excludes) the test [old_edit.reel] is an
    attribute access on [None]. *)
Definition compare_iter (old_edits new_edits : list Edit) (fps : Z)
    (changes : list Change) (i : nat) : result (list Change) :=
  let old_edit := old_edits !! i in
  let new_edit := new_edits !! i in
  match old_edit, new_edit with
  | None, Some n => Ok (changes ++ [mkChange NEW None (Some n) clip_added])
  | Some o, None => Ok (changes ++ [mkChange DELETED (Some o) None ∅])
  | None, None => Raise AttributeError
  | Some o, Some n =>
      if negb (String.eqb (reel o) (reel n)) then
        Ok (changes ++ [mkChange NEW (Some o) (Some n) clip_added])
      else if String.eqb (source_in o) (source_in n)
              && String.eqb (source_out o) (source_out n) then
        Ok (changes ++ [mkChange UNCHANGED (Some o) (Some n) ∅])
      else
        details ← compute_trim_details o n fps;
        Ok (changes ++ [mkChange CHANGED (Some o) (Some n) details])
  end.

Definition compare_edls (old_edits new_edits : list Edit) (fps : Z)
  : result (list Change) :=
  let max_len := (length old_edits `max` length new_edits)%nat in
  for_each (compare_iter old_edits new_edits fps) (seq 0 max_len) [].

(** ** Renderer *)

Definition plural (n : Z) : string := if decide (n = 1) then "" else "s".

Definition frames_to_description (frames : Z) (fps : Z) : result string :=
  seconds ← floordiv frames fps;
  remaining_frames ← pymod frames fps;
  if decide (seconds = 0) then
    Ok (Py.str remaining_frames +:+ " frame" +:+ plural remaining_frames)
  else
    Ok (Py.str seconds +:+ " second" +:+ plural seconds +:+ " "
        +:+ Py.str remaining_frames +:+ " frame" +:+ plural remaining_frames).

(** [f"{v}"] for a value of a detail mapping. *)
Definition format_value (v : value) : string :=
  match v with
  | VInt z => Py.str z
  | VStr s => s
  end.

(** [v == 0] *)
Definition value_is_zero (v : value) : bool :=
  match v with
  | VInt z => bool_decide (z = 0)
  | VStr _ => false
  end.

(** [frames_to_description(v, fps)]: [//] on a string is a [TypeError]. *)
Definition describe_value (v : value) (fps : Z) : result string :=
  match v with
  | VInt z => frames_to_description z fps
  | VStr _ => Raise TypeError
  end.

(** [details[k]] *)
Definition getitem (details : gmap string value) (k : string) : result value :=
  match details !! k with
  | Some v => Ok v
  | None => Raise KeyError
  end.

(** The HEAD or TAIL clause, present when [change_key] is in [details]. *)
Definition trim_clause (label change_key from_key to_key : string)
    (details : gmap string value) : result (list string) :=
  match details !! change_key with
  | None => Ok []
  | Some v =>
      let action :=
        if decide (v = VStr "extended") then "extended" else "trimmed" in
      from ← getitem details from_key;
      to ← getitem details to_key;
      Ok [" " +:+ label +:+ " " +:+ action +:+ " from " +:+ format_value from
          +:+ " to " +:+ format_value to +:+ "."]
  end.

(** [desc_parts] for a CHANGED record. *)
Definition desc_parts (details : gmap string value) (fps : Z)
  : result (list string) :=
  let time_diff := default (VInt 0) (details !! "time_diff_frames") in
  let old_length := default (VInt 0) (details !! "old_length_frames") in
  let new_length := default (VInt 0) (details !! "new_length_frames") in
  let part_a :=
    if value_is_zero time_diff
    then "No time difference. Shifted within itself. "
    else "Time difference " +:+ format_value time_diff +:+ " frames  ["
         +:+ format_value time_diff +:+ " frames]." in
  head ← trim_clause "HEAD" "head_change" "head_from" "head_to" details;
  tail ← trim_clause "TAIL" "tail_change" "tail_from" "tail_to" details;
  lengths ←
    (if negb (value_is_zero time_diff) then
       old_len_str ← describe_value old_length fps;
       new_len_str ← describe_value new_length fps;
       Ok [" Old length: " +:+ old_len_str +:+ " ["
           +:+ format_value old_length +:+ " frames] - New length: "
           +:+ new_len_str +:+ " [" +:+ format_value new_length
           +:+ " frames]"]
     else Ok []);
  Ok ([part_a] ++ head ++ tail ++ lengths).

(** ["".join(parts)] *)
Definition join (parts : list string) : string := foldr String.app "" parts.

(** What one iteration of the loop of [output_change_list] writes:
    [None] for a skipped record, [Some line] for a written line. *)
Definition display_edit (c : Change) : result Edit :=
  match (match c_new c with Some n => Some n | None => c_old c end) with
  | Some edit => Ok edit
  | None => Raise AttributeError
  end.

Definition output_line (label record_tc color description : string) : string :=
  label +:+ Py.tab +:+ record_tc +:+ Py.tab +:+ "TC" +:+ Py.tab +:+ color
  +:+ Py.tab +:+ description +:+ Py.tab +:+ "1" +:+ Py.nl.

Definition render_change (c : Change) (fps : Z) : result (option string) :=
  match c_type c with
  | UNCHANGED => Ok None
  | DELETED => Ok None
  | NEW =>
      edit ← display_edit c;
      let description := "Clip added (" +:+ clip_name edit +:+ ")" in
      Ok (Some (output_line "New" (record_in edit) "magenta" description))
  | CHANGED =>
      edit ← display_edit c;
      parts ← desc_parts (c_details c) fps;
      let description := join parts +:+ " (" +:+ clip_name edit +:+ ")" in
      Ok (Some (output_line "Changed" (record_in edit) "yellow" description))
  end.

(** [output_change_list]: the lines written to the output file, and the
    exception that ended the loop, if any.  Lines written before an
    exception stay written. *)
Fixpoint write_changes (changes : list Change) (fps : Z)
    (written : list string) : list string * option exn :=
  match changes with
  | [] => (written, None)
  | c :: rest =>
      match render_change c fps with
      | Ok None => write_changes rest fps written
      | Ok (Some line) => write_changes rest fps (written ++ [line])
      | Raise e => (written, Some e)
      end
  end.

Definition output_change_list (changes : list Change) (fps : Z)
  : list string * option exn :=
  write_changes changes fps [].

(** ** The program *)

Inductive outcome : Type :=
  | Finished
  | Exit (status : Z)
  | Uncaught (e : exn).

(** The script: [argv] includes the program name; the result is the file
    system after the run and how the run ended.  Messages printed to the
    standard output are left out. *)
Definition main (argv : list string) (fs : gmap string string)
  : gmap string string * outcome :=
  match argv with
  | [_; old_file; new_file; output_file] =>
      let fps := 24 in
      let parser := mkEDLParser fps in
      match parse parser fs old_file with
      | Raise e => (fs, Uncaught e)
      | Ok old_edits =>
          match parse parser fs new_file with
          | Raise e => (fs, Uncaught e)
          | Ok new_edits =>
              match compare_edls old_edits new_edits fps with
              | Raise e => (fs, Uncaught e)
              | Ok changes =>
                  let '(written, err) := output_change_list changes fps in
                  let fs' := <[output_file := join written]> fs in
                  match err with
                  | None => (fs', Finished)
                  | Some e => (fs', Uncaught e)
                  end
              end
          end
      end
  | _ => (fs, Exit 1)
  end.

(** ** Vocabulary of the specification *)

(** A string of decimal digits. *)
Fixpoint all_digits (s : string) : bool :=
  match s with
  | "" => true
  | String c r => Py.is_digit c && all_digits r
  end.

(** [sep] does not occur in [s]. *)
Fixpoint lacks (sep : ascii) (s : string) : bool :=
  match s with
  | "" => true
  | String c r => negb (Ascii.eqb c sep) && lacks sep r
  end.

(** [sep.join(l)] for a one-character separator. *)
Fixpoint join_with (sep : ascii) (l : list string) : string :=
  match l with
  | [] => ""
  | [x] => x
  | x :: r => x +:+ String sep (join_with sep r)
  end.

(** A two-digit field and its value. *)
Definition two_digits (s : string) : option Z :=
  match s with
  | String a (String b "") =>
      if Py.is_digit a && Py.is_digit b
      then Some (Py.digit_val a * 10 + Py.digit_val b)
      else None
  | _ => None
  end.

(** A valid timecode [HH:MM:SS:FF] at [fps]: four two-digit fields,
    minutes and seconds below 60 and the frame field below [fps]. *)
Definition valid_timecode (tc : string) (fps : Z) : bool :=
  match Py.split_on ":" tc with
  | [hh; mm; ss; ff] =>
      match two_digits hh, two_digits mm, two_digits ss, two_digits ff with
      | Some _, Some m, Some s, Some f => (m <? 60) && (s <? 60) && (f <? fps)
      | _, _, _, _ => false
      end
  | _ => false
  end.

(** The timecode string with the given field values. *)
Definition tc_of (h m s f : Z) : string :=
  Py.fmt02d h +:+ ":" +:+ Py.fmt02d m +:+ ":" +:+ Py.fmt02d s
  +:+ ":" +:+ Py.fmt02d f.

(** The four timecodes of an edit can be read by [tc_to_frames]. *)
Definition is_ok {A : Type} (r : result A) : bool :=
  match r with
  | Ok _ => true
  | Raise _ => false
  end.

Definition timecodes_parse (fps : Z) (e : Edit) : bool :=
  is_ok (tc_to_frames (source_in e) fps)
  && is_ok (tc_to_frames (source_out e) fps)
  && is_ok (tc_to_frames (record_in e) fps)
  && is_ok (tc_to_frames (record_out e) fps).

(** The edits of Example 2 of the specification (a pure head trim); event
    number, reel and clip name are left open. *)
Definition example2_old (ev rl clip : string) : Edit :=
  mkEdit ev rl "01:00:00:00" "01:00:10:00" "01:00:00:00" "01:00:10:00" clip.

Definition example2_new (ev rl clip : string) : Edit :=
  mkEdit ev rl "01:00:02:00" "01:00:10:00" "01:00:00:00" "01:00:10:00" clip.

(** The timecodes [compute_trim_details] reads. *)
Definition timecodes_read (o n : Edit) : list string :=
  [source_in o; source_out o; source_in n; source_out n;
   record_in o; record_out o; record_in n; record_out n].

(** The head and tail actions stored for a difference of source frames. *)
Definition head_action (diff : Z) : option string :=
  if diff <? 0 then Some "extended"
  else if diff >? 0 then Some "trimmed" else None.

Definition tail_action (diff : Z) : option string :=
  if diff >? 0 then Some "extended"
  else if diff <? 0 then Some "trimmed" else None.

(** A malformed timecode: not exactly four [:]-separated components, or a
    component that [int] rejects. *)
Definition malformed_timecode (tc : string) : Prop :=
  length (Py.split_on ":" tc) ≠ 4%nat
  ∨ ∃ c, c ∈ Py.split_on ":" tc ∧ is_ok (Py.int c) = false.

(** The records the renderer reports. *)
Definition reportable (c : Change) : bool :=
  match c_type c with
  | NEW | CHANGED => true
  | UNCHANGED | DELETED => false
  end.

(** A line that starts with one or more digits. *)
Definition starts_with_digit (s : string) : bool :=
  match s with
  | String a _ => Py.is_digit a
  | "" => false
  end.

(** Sample inputs: the edits of Example 2 with names filled in, an old
    edit with an unreadable source in, and two EDL files holding them. *)
Definition sample_old : Edit := example2_old "001" "AX" "clip.mov".
Definition sample_new : Edit := example2_new "001" "AX" "clip.mov".

Definition sample_bad_old : Edit :=
  mkEdit "001" "AX" "01:00:0x:00" "01:00:10:00" "01:00:00:00" "01:00:10:00"
    "".

Definition sample_bad_new : Edit := example2_new "001" "AX" "".

Definition sample_fs : gmap string string :=
  {[ "old.edl" :=
       "001  AX V C 01:00:0x:00 01:00:10:00 01:00:00:00 01:00:10:00";
     "new.edl" :=
       "001  AX V C 01:00:02:00 01:00:10:00 01:00:00:00 01:00:10:00" ]}.

(** The records and the output line for an edit that is kept, one that is
    appended and one that is dropped from the end. *)
Definition unchanged_record (e : Edit) : Change :=
  mkChange UNCHANGED (Some e) (Some e) ∅.

Definition added_record (e : Edit) : Change :=
  mkChange NEW None (Some e) clip_added.

Definition deleted_record (e : Edit) : Change :=
  mkChange DELETED (Some e) None ∅.

Definition new_line (e : Edit) : string :=
  output_line "New" (record_in e) "magenta"
    ("Clip added (" +:+ clip_name e +:+ ")").

(** The same-reel position with differing sources at which the
    comparator reads timecodes. *)
Definition reads_timecodes (o n : Edit) : Prop :=
  reel o = reel n
  ∧ ¬ (source_in o = source_in n ∧ source_out o = source_out n).

(** The opposite trim action. *)
Definition opposite_action (v : value) : value :=
  if decide (v = VStr "extended") then VStr "trimmed" else VStr "extended".

(** The six positional fields of an edit, and the fields a raw line
    gives when it is an event line. *)
Definition edit_fields (e : Edit)
  : string * string * string * string * string * string :=
  (event_num e, reel e, source_in e, source_out e, record_in e, record_out e).

Definition line_fields (raw : string)
  : option (string * string * string * string * string * string) :=
  let line := Py.strip raw in
  if Py.match_event_number line then
    match Py.split line with
    | p0 :: p1 :: _ :: _ :: p4 :: p5 :: p6 :: p7 :: _ =>
        Some (p0, p1, p4, p5, p6, p7)
    | _ => None
    end
  else None.

(** No whitespace character occurs in [s]. *)
Fixpoint no_space (s : string) : bool :=
  match s with
  | "" => true
  | String c r => negb (Py.is_space c) && no_space r
  end.

(** A field of an event line: not empty, no whitespace. *)
Definition is_field (s : string) : Prop := s ≠ "" ∧ no_space s = true.

(** * Properties *)

(** ** The embedding on small inputs *)

Section examples.

Example int_surrounding_space : Py.int " 12 " = Ok 12.
Proof. reflexivity. Qed.

Example int_sign_and_underscore : Py.int "-1_0" = Ok (-10).
Proof. reflexivity. Qed.

Example int_rejects_inner_space : Py.int "+ 1" = Raise ValueError.
Proof. reflexivity. Qed.

Example int_rejects_empty : Py.int "" = Raise ValueError.
Proof. reflexivity. Qed.

Example tc_to_frames_example : tc_to_frames "01:00:02:00" 24 = Ok 86448.
Proof. reflexivity. Qed.

Example tc_to_frames_three_fields : tc_to_frames "1:2:3" 24 = Raise ValueError.
Proof. reflexivity. Qed.

Example parse_tc_five_fields : parse_tc "1:2:3:4:5" = Ok 89356.
Proof. reflexivity. Qed.

Example parse_tc_three_fields : parse_tc "1:2:3" = Raise IndexError.
Proof. reflexivity. Qed.

Example frames_to_tc_example : frames_to_tc 86447 24 = Ok "01:00:01:23".
Proof. reflexivity. Qed.

Example frames_to_tc_negative : frames_to_tc (-48) 24 = Ok "-1:59:58:00".
Proof. reflexivity. Qed.

Example frames_to_tc_zero_fps : frames_to_tc 10 0 = Raise ZeroDivisionError.
Proof. reflexivity. Qed.

Example frames_to_description_second :
  frames_to_description 24 24 = Ok "1 second 0 frames".
Proof. reflexivity. Qed.

Example frames_to_description_one : frames_to_description 1 24 = Ok "1 frame".
Proof. reflexivity. Qed.

Example frames_to_description_zero :
  frames_to_description 0 24 = Ok "0 frames".
Proof. reflexivity. Qed.

Example split_fields :
  Py.split "  001  AX V  C a b c d extra " =
  ["001"; "AX"; "V"; "C"; "a"; "b"; "c"; "d"; "extra"].
Proof. reflexivity. Qed.

Example readlines_example :
  readlines ("a" +:+ String "013" (String "010" "b") +:+ String "013" "c")
  = ["a" +:+ Py.nl; "b" +:+ Py.nl; "c"].
Proof. reflexivity. Qed.

Example clip_name_example :
  Py.search_literal_dot_plus clip_name_marker "* FROM CLIP NAME: a b.mov"
  = Some "a b.mov".
Proof. reflexivity. Qed.

End examples.

(** ** Decimal literals *)

Section decimal.

Lemma is_digit_not_space c : Py.is_digit c = true → Py.is_space c = false.
Proof.
  unfold Py.is_digit, Py.is_space. generalize (Py.code c). intros n H.
  apply andb_true_iff in H as [H1 H2].
  apply N.leb_le in H1. apply N.leb_le in H2.
  repeat match goal with
         | |- context [(?a <=? ?b)%N] =>
             destruct (N.leb_spec a b)
         | |- context [(?a =? ?b)%N] =>
             destruct (N.eqb_spec a b)
         end; simpl; try reflexivity; lia.
Qed.

Lemma is_digit_cases c :
  Py.is_digit c = true →
  ∃ d : N, (d < 10)%N ∧ c = pretty_N_char d ∧ Py.digit_val c = Z.of_N d.
Proof.
  intros H. exists (Py.code c - 48)%N.
  destruct c as [[] [] [] [] [] [] [] []]; try discriminate H;
    vm_compute; repeat split.
Qed.

Lemma pretty_N_char_digit d :
  (d < 10)%N →
  Py.is_digit (pretty_N_char d) = true
  ∧ Py.digit_val (pretty_N_char d) = Z.of_N d.
Proof.
  intros H.
  assert (d = 0 ∨ d = 1 ∨ d = 2 ∨ d = 3 ∨ d = 4 ∨ d = 5 ∨ d = 6 ∨ d = 7
          ∨ d = 8 ∨ d = 9)%N as Hd by lia.
  repeat (destruct Hd as [-> | Hd]; [by vm_compute |]). by subst.
Qed.

Lemma pretty_N_go_all_digits x s :
  all_digits s = true → all_digits (pretty_N_go x s) = true.
Proof.
  revert s. induction (N.lt_wf_0 x) as [x _ IH]. intros s Hs.
  destruct (decide (x = 0)%N) as [-> | Hx]; [by rewrite pretty_N_go_0 |].
  rewrite pretty_N_go_step by lia.
  apply IH; [apply N.div_lt; lia |]. simpl.
  destruct (pretty_N_char_digit (x `mod` 10)) as [-> _];
    [apply N.mod_lt; lia | done].
Qed.

(** Reading the digits written for [x] in front of [s] continues reading
    [s] with [x] accumulated. *)
Lemma int_digits_pretty_N_go x s prev :
  (0 < x)%N →
  Py.int_digits prev 0 (pretty_N_go x s) = Py.int_digits true (Z.of_N x) s.
Proof.
  revert s prev. induction (N.lt_wf_0 x) as [x _ IH]. intros s prev Hx.
  rewrite pretty_N_go_step by done.
  destruct (pretty_N_char_digit (x `mod` 10)) as [Hd Hv];
    [apply N.mod_lt; lia |].
  assert (Z.of_N (x `div` 10) * 10 + Z.of_N (x `mod` 10) = Z.of_N x) as Hx10.
  { pose proof (N.div_mod x 10 ltac:(lia)) as H.
    set (q := (x `div` 10)%N) in *. set (r := (x `mod` 10)%N) in *.
    clearbody q r. lia. }
  destruct (decide (x `div` 10 = 0)%N) as [Hq | Hq].
  - rewrite Hq in Hx10 |- *. rewrite pretty_N_go_0. simpl.
    rewrite Hd, Hv. f_equal. exact Hx10.
  - rewrite IH; [| apply N.div_lt; lia | by apply N.neq_0_lt_0]. simpl.
    by rewrite Hd, Hv, Hx10.
Qed.

Lemma all_digits_pretty_N (x : N) : all_digits (pretty x) = true.
Proof.
  unfold pretty, pretty_N. case_decide; [done |].
  by apply pretty_N_go_all_digits.
Qed.

Lemma int_digits_pretty_N (x : N) prev :
  Py.int_digits prev 0 (pretty x) = Some (Z.of_N x).
Proof.
  unfold pretty, pretty_N. case_decide as Hx; [by subst |].
  rewrite int_digits_pretty_N_go by lia. done.
Qed.

Lemma pretty_N_nonempty (x : N) : pretty x ≠ "".
Proof.
  intros H. pose proof (int_digits_pretty_N x false) as H'.
  rewrite H in H'. discriminate.
Qed.

Lemma lstrip_digits c s :
  Py.is_digit c = true → Py.lstrip (String c s) = String c s.
Proof. intros H. simpl. by rewrite (is_digit_not_space _ H). Qed.

Lemma rstrip_digits s : all_digits s = true → Py.rstrip s = s.
Proof.
  induction s as [| c r IH]; [done |]. simpl.
  intros [Hc Hr]%andb_true_iff. rewrite (IH Hr).
  destruct r; [by rewrite (is_digit_not_space _ Hc) | done].
Qed.

Lemma strip_digits s : all_digits s = true → Py.strip s = s.
Proof.
  intros H. unfold Py.strip. destruct s as [| c r]; [done |].
  simpl in H. apply andb_true_iff in H as [Hc Hr].
  rewrite lstrip_digits by done. apply rstrip_digits. simpl.
  by rewrite Hc, Hr.
Qed.

(** [int] reads a string of digits as its decimal value. *)
Lemma int_all_digits s n :
  all_digits s = true → Py.int_digits false 0 s = Some n → Py.int s = Ok n.
Proof.
  intros Hs Hn. unfold Py.int. rewrite strip_digits by done.
  destruct s as [| c r]; [discriminate Hn |].
  simpl in Hs. apply andb_true_iff in Hs as [Hc _].
  assert (c ≠ "-"%char ∧ c ≠ "+"%char) as [H1 H2].
  { split; intros ->; discriminate Hc. }
  destruct c as [[] [] [] [] [] [] [] []]; try congruence; by rewrite Hn.
Qed.

Lemma int_digits_str prev n :
  0 ≤ n → Py.int_digits prev 0 (Py.str n) = Some n.
Proof.
  intros Hn. unfold Py.str.
  destruct n as [| p | p]; [by destruct prev | | lia].
  change (pretty (Z.pos p)) with (pretty (N.pos p)).
  by rewrite int_digits_pretty_N.
Qed.

Lemma all_digits_str n : 0 ≤ n → all_digits (Py.str n) = true.
Proof.
  intros Hn. unfold Py.str. destruct n as [| p | p]; [done | | lia].
  change (pretty (Z.pos p)) with (pretty (N.pos p)).
  apply all_digits_pretty_N.
Qed.

Lemma all_digits_fmt02d n : 0 ≤ n → all_digits (Py.fmt02d n) = true.
Proof.
  intros Hn. unfold Py.fmt02d.
  destruct ((0 <=? n) && (n <? 10)); [| by apply all_digits_str].
  change (Py.is_digit "0" && all_digits (Py.str n) = true).
  by rewrite all_digits_str.
Qed.

Lemma int_str_nonneg n : 0 ≤ n → Py.int (Py.str n) = Ok n.
Proof.
  intros Hn. apply int_all_digits; [by apply all_digits_str |].
  by apply int_digits_str.
Qed.

Lemma int_fmt02d n : 0 ≤ n → Py.int (Py.fmt02d n) = Ok n.
Proof.
  intros Hn. apply int_all_digits; [by apply all_digits_fmt02d |].
  unfold Py.fmt02d.
  destruct ((0 <=? n) && (n <? 10)); [| by apply int_digits_str].
  change (Py.int_digits true 0 (Py.str n) = Some n).
  by apply int_digits_str.
Qed.

End decimal.

(** ** Strings: concatenation and splitting *)

Section strings.

Lemma str_app_cons c r s : String c r +:+ s = String c (r +:+ s).
Proof. reflexivity. Qed.

Lemma str_app_nil_l s : "" +:+ s = s.
Proof. reflexivity. Qed.

Lemma str_app_nil_r s : s +:+ "" = s.
Proof. induction s as [| c r IH]; [done |]. by rewrite str_app_cons, IH. Qed.

Lemma str_app_assoc s1 s2 s3 : (s1 +:+ s2) +:+ s3 = s1 +:+ s2 +:+ s3.
Proof.
  induction s1 as [| c r IH]; [done |]. by rewrite !str_app_cons, IH.
Qed.

Lemma all_digits_lacks_colon s : all_digits s = true → lacks ":" s = true.
Proof.
  induction s as [| c r IH]; [done |]. simpl.
  intros [Hc Hr]%andb_true_iff. rewrite (IH Hr), andb_true_r.
  destruct (Ascii.eqb_spec c ":") as [-> |]; [discriminate Hc | done].
Qed.

Lemma split_on_go_app sep cur a s :
  lacks sep a = true →
  Py.split_on_go sep cur (a +:+ s) = Py.split_on_go sep (cur +:+ a) s.
Proof.
  revert cur. induction a as [| c r IH]; intros cur.
  - by rewrite str_app_nil_l, str_app_nil_r.
  - simpl. intros [Hc Hr]%andb_true_iff.
    apply negb_true_iff in Hc. rewrite Hc, IH by done.
    by rewrite str_app_assoc.
Qed.

Lemma split_on_go_sep sep cur s :
  Py.split_on_go sep cur (String sep s) = cur :: Py.split_on_go sep "" s.
Proof. simpl. by rewrite Ascii.eqb_refl. Qed.

(** Splitting four separator-free fields joined by the separator gives
    the fields back. *)
Lemma split_on_four sep a b c d :
  lacks sep a = true → lacks sep b = true →
  lacks sep c = true → lacks sep d = true →
  Py.split_on sep
    (a +:+ String sep "" +:+ b +:+ String sep "" +:+ c +:+ String sep ""
     +:+ d)
  = [a; b; c; d].
Proof.
  intros Ha Hb Hc Hd. unfold Py.split_on.
  rewrite split_on_go_app, str_app_nil_l, str_app_cons, str_app_nil_l,
    split_on_go_sep by done.
  rewrite split_on_go_app, str_app_nil_l, str_app_cons, str_app_nil_l,
    split_on_go_sep by done.
  rewrite split_on_go_app, str_app_nil_l, str_app_cons, str_app_nil_l,
    split_on_go_sep by done.
  rewrite <- (str_app_nil_r d), split_on_go_app, str_app_nil_l by done.
  by rewrite str_app_nil_r.
Qed.

Lemma split_on_go_nonnil sep cur s : Py.split_on_go sep cur s ≠ [].
Proof.
  revert cur. induction s as [| c r IH]; intros cur; simpl; [done |].
  destruct (Ascii.eqb c sep); [done | apply IH].
Qed.

Lemma join_split_on_go sep cur s :
  join_with sep (Py.split_on_go sep cur s) = cur +:+ s.
Proof.
  revert cur. induction s as [| c r IH]; intros cur; simpl.
  - by rewrite str_app_nil_r.
  - destruct (Ascii.eqb_spec c sep) as [-> | Hc].
    + specialize (IH ""). rewrite str_app_nil_l in IH.
      destruct (Py.split_on_go sep "" r) as [| x l] eqn:E;
        [by apply split_on_go_nonnil in E |].
      change (join_with sep (cur :: x :: l))
        with (cur +:+ String sep (join_with sep (x :: l))).
      by rewrite IH.
    + by rewrite IH, str_app_assoc.
Qed.

Lemma join_split_on sep s : join_with sep (Py.split_on sep s) = s.
Proof. apply join_split_on_go. Qed.

End strings.

(** ** Timecode codec *)

Section timecode.

Lemma floordiv_nonzero a b : b ≠ 0 → floordiv a b = Ok (a `div` b).
Proof. intros H. unfold floordiv. by case_decide. Qed.

Lemma pymod_nonzero a b : b ≠ 0 → pymod a b = Ok (a `mod` b).
Proof. intros H. unfold pymod. by case_decide. Qed.

Lemma frames_to_tc_nonzero frames fps :
  fps ≠ 0 →
  frames_to_tc frames fps
  = Ok (tc_of (frames `div` (60 * 60 * fps))
              ((frames `mod` (60 * 60 * fps)) `div` (60 * fps))
              (((frames `mod` (60 * 60 * fps)) `mod` (60 * fps)) `div` fps)
              (((frames `mod` (60 * 60 * fps)) `mod` (60 * fps)) `mod` fps)).
Proof.
  intros H. unfold frames_to_tc.
  rewrite (floordiv_nonzero _ (60 * 60 * fps)) by lia.
  rewrite (pymod_nonzero _ (60 * 60 * fps)) by lia. simpl.
  rewrite (floordiv_nonzero _ (60 * fps)) by lia.
  rewrite (pymod_nonzero _ (60 * fps)) by lia. simpl.
  rewrite (floordiv_nonzero _ fps) by lia.
  rewrite (pymod_nonzero _ fps) by lia. reflexivity.
Qed.

Lemma tc_to_frames_tc_of h m s f fps :
  0 ≤ h → 0 ≤ m → 0 ≤ s → 0 ≤ f →
  tc_to_frames (tc_of h m s f) fps = Ok (((h * 60 + m) * 60 + s) * fps + f).
Proof.
  intros Hh Hm Hs Hf. unfold tc_to_frames, tc_of.
  change ":" with (String ":"%char "").
  rewrite split_on_four
    by (apply all_digits_lacks_colon; by apply all_digits_fmt02d).
  by rewrite !int_fmt02d.
Qed.

Lemma two_digits_fmt02d x v :
  two_digits x = Some v → x = Py.fmt02d v ∧ 0 ≤ v < 100.
Proof.
  destruct x as [| a [| b [| ? ?]]]; try discriminate. unfold two_digits.
  destruct (Py.is_digit a) eqn:Ha; [| discriminate].
  destruct (Py.is_digit b) eqn:Hb; [| discriminate].
  simpl. intros [= <-].
  destruct (is_digit_cases a Ha) as (da & Hda & -> & ->).
  destruct (is_digit_cases b Hb) as (db & Hdb & -> & ->).
  split; [| lia].
  assert (da = 0 ∨ da = 1 ∨ da = 2 ∨ da = 3 ∨ da = 4 ∨ da = 5 ∨ da = 6
          ∨ da = 7 ∨ da = 8 ∨ da = 9)%N as Ha' by lia.
  assert (db = 0 ∨ db = 1 ∨ db = 2 ∨ db = 3 ∨ db = 4 ∨ db = 5 ∨ db = 6
          ∨ db = 7 ∨ db = 8 ∨ db = 9)%N as Hb' by lia.
  clear Ha Hb Hda Hdb.
  repeat (destruct Ha' as [-> | Ha']); try subst da;
    repeat (destruct Hb' as [-> | Hb']); try subst db;
    vm_compute; reflexivity.
Qed.

(** A valid timecode is the canonical rendering of its field values. *)
Lemma valid_timecode_tc_of tc fps :
  valid_timecode tc fps = true →
  ∃ h m s f, tc = tc_of h m s f
             ∧ 0 ≤ h ∧ 0 ≤ m < 60 ∧ 0 ≤ s < 60 ∧ 0 ≤ f < fps.
Proof.
  unfold valid_timecode. intros H.
  pose proof (join_split_on ":" tc) as Hj.
  destruct (Py.split_on ":" tc) as [| hh [| mm [| ss [| ff [| ? ?]]]]];
    try discriminate.
  destruct (two_digits hh) as [h |] eqn:Eh; [| discriminate].
  destruct (two_digits mm) as [m |] eqn:Em; [| discriminate].
  destruct (two_digits ss) as [s |] eqn:Es; [| discriminate].
  destruct (two_digits ff) as [f |] eqn:Ef; [| discriminate].
  apply two_digits_fmt02d in Eh as [-> ?], Em as [-> ?],
    Es as [-> ?], Ef as [-> ?].
  apply andb_true_iff in H as [[Hm60 Hs60]%andb_true_iff Hffps].
  exists h, m, s, f. split; [by rewrite <- Hj | lia].
Qed.

Lemma div_mod_unique a b q r :
  0 ≤ r < b → a = b * q + r → a `div` b = q ∧ a `mod` b = r.
Proof.
  intros Hr ->. split.
  - symmetry. by apply (Z.div_unique_pos _ _ q r).
  - symmetry. by apply (Z.mod_unique_pos _ _ q r).
Qed.

Lemma frames_to_tc_of_fields h m s f fps :
  0 ≤ m < 60 → 0 ≤ s < 60 → 0 ≤ f < fps →
  frames_to_tc (((h * 60 + m) * 60 + s) * fps + f) fps = Ok (tc_of h m s f).
Proof.
  intros Hm Hs Hf. rewrite frames_to_tc_nonzero by lia.
  destruct (div_mod_unique (((h * 60 + m) * 60 + s) * fps + f)
              (60 * 60 * fps) h ((m * 60 + s) * fps + f)) as [-> ->];
    [nia | lia |].
  destruct (div_mod_unique ((m * 60 + s) * fps + f)
              (60 * fps) m (s * fps + f)) as [-> ->]; [nia | lia |].
  destruct (div_mod_unique (s * fps + f) fps s f) as [-> ->];
    [lia | lia |].
  reflexivity.
Qed.

(** Round trip from a valid timecode, and the injectivity that follows. *)
Lemma valid_timecode_roundtrip tc fps :
  valid_timecode tc fps = true →
  ∃ n, tc_to_frames tc fps = Ok n ∧ frames_to_tc n fps = Ok tc.
Proof.
  intros (h & m & s & f & -> & Hh & Hm & Hs & Hf)%valid_timecode_tc_of.
  eexists. split; [apply tc_to_frames_tc_of; lia |].
  by apply frames_to_tc_of_fields.
Qed.

Lemma valid_timecode_inj tc1 tc2 fps n :
  valid_timecode tc1 fps = true → valid_timecode tc2 fps = true →
  tc_to_frames tc1 fps = Ok n → tc_to_frames tc2 fps = Ok n → tc1 = tc2.
Proof.
  intros (n1 & E1 & R1)%valid_timecode_roundtrip
         (n2 & E2 & R2)%valid_timecode_roundtrip H1 H2.
  congruence.
Qed.

(** C4.  For every valid timecode [HH:MM:SS:FF] (two-digit fields,
    minutes and seconds below 60) whose frame field is below [fps],
    converting it to frames and back gives the same string. *)
Theorem timecode_roundtrip tc fps :
  valid_timecode tc fps = true →
  (frames ← tc_to_frames tc fps; frames_to_tc frames fps) = Ok tc.
Proof.
  intros (n & -> & R)%valid_timecode_roundtrip. exact R.
Qed.

Lemma timecode_roundtrip_witness :
  valid_timecode "01:59:59:23" 24 = true
  ∧ (frames ← tc_to_frames "01:59:59:23" 24; frames_to_tc frames 24)
    = Ok "01:59:59:23".
Proof.
  split; [reflexivity | apply timecode_roundtrip; reflexivity].
Defined.

(** C9.  For every frame count [frames >= 0] and every [fps >= 1],
    writing the count as a timecode and reading it back gives the
    count. *)
Theorem frames_roundtrip frames fps :
  0 ≤ frames → 1 ≤ fps →
  (tc ← frames_to_tc frames fps; tc_to_frames tc fps) = Ok frames.
Proof.
  intros Hframes Hfps. rewrite frames_to_tc_nonzero by lia.
  change (tc_to_frames (tc_of (frames `div` (60 * 60 * fps))
            ((frames `mod` (60 * 60 * fps)) `div` (60 * fps))
            (((frames `mod` (60 * 60 * fps)) `mod` (60 * fps)) `div` fps)
            (((frames `mod` (60 * 60 * fps)) `mod` (60 * fps)) `mod` fps))
            fps = Ok frames).
  pose proof (Z.div_mod frames (60 * 60 * fps) ltac:(lia)) as E1.
  pose proof (Z.mod_pos_bound frames (60 * 60 * fps) ltac:(lia)) as B1.
  set (h := frames `div` (60 * 60 * fps)) in *.
  set (r1 := frames `mod` (60 * 60 * fps)) in *.
  assert (0 ≤ h) by (apply Z.div_pos; lia).
  pose proof (Z.div_mod r1 (60 * fps) ltac:(lia)) as E2.
  pose proof (Z.mod_pos_bound r1 (60 * fps) ltac:(lia)) as B2.
  set (m := r1 `div` (60 * fps)) in *.
  set (r2 := r1 `mod` (60 * fps)) in *.
  assert (0 ≤ m) by (apply Z.div_pos; lia).
  pose proof (Z.div_mod r2 fps ltac:(lia)) as E3.
  pose proof (Z.mod_pos_bound r2 fps ltac:(lia)) as B3.
  set (s := r2 `div` fps) in *.
  set (f := r2 `mod` fps) in *.
  assert (0 ≤ s) by (apply Z.div_pos; lia).
  rewrite tc_to_frames_tc_of by lia.
  f_equal. clearbody h r1 m r2 s f. lia.
Qed.

Lemma frames_roundtrip_witness :
  (tc ← frames_to_tc 86447 24; tc_to_frames tc 24) = Ok 86447.
Proof. apply frames_roundtrip; lia. Defined.

End timecode.

(** ** Comparator *)

Section comparator.

Variables (old_edits new_edits : list Edit) (fps : Z).

Lemma int_raise s e : Py.int s = Raise e → e = ValueError.
Proof.
  unfold Py.int.
  destruct (match Py.strip s with
            | String "-"%char r => (true, r)
            | String "+"%char r => (false, r)
            | _ => (false, Py.strip s)
            end) as [neg body].
  destruct (Py.int_digits false 0 body); congruence.
Qed.

Lemma tc_to_frames_raise tc e :
  tc_to_frames tc fps = Raise e → e = ValueError.
Proof.
  unfold tc_to_frames.
  destruct (Py.split_on ":" tc) as [| c0 [| c1 [| c2 [| c3 [| ? ?]]]]];
    try congruence.
  destruct (Py.int c0) eqn:E0; simpl; [| intros [= <-]; eauto using int_raise].
  destruct (Py.int c1) eqn:E1; simpl; [| intros [= <-]; eauto using int_raise].
  destruct (Py.int c2) eqn:E2; simpl; [| intros [= <-]; eauto using int_raise].
  destruct (Py.int c3) eqn:E3; simpl; [| intros [= <-]; eauto using int_raise].
  discriminate.
Qed.

Lemma compute_trim_details_raise o n e :
  compute_trim_details o n fps = Raise e → e = ValueError.
Proof.
  unfold compute_trim_details.
  repeat match goal with
         | |- context [tc_to_frames ?tc fps] =>
             let E := fresh "E" in
             destruct (tc_to_frames tc fps) eqn:E; simpl;
             [| intros [= <-]; eauto using tc_to_frames_raise]
         end.
  discriminate.
Qed.

(** [compute_trim_details] returns exactly when the eight timecodes it
    reads can be read. *)
Lemma compute_trim_details_ok o n :
  timecodes_parse fps o = true → timecodes_parse fps n = true →
  ∃ d, compute_trim_details o n fps = Ok d.
Proof.
  unfold timecodes_parse, compute_trim_details. intros Ho Hn.
  repeat match goal with
         | H : _ && _ = true |- _ => apply andb_true_iff in H as [? ?]
         end.
  repeat match goal with
         | H : is_ok (tc_to_frames ?tc fps) = true |- _ =>
             destruct (tc_to_frames tc fps); [clear H | discriminate H]
         end.
  simpl. eauto.
Qed.

Lemma compute_trim_details_raises o n tc :
  tc ∈ timecodes_read o n →
  tc_to_frames tc fps = Raise ValueError →
  compute_trim_details o n fps = Raise ValueError.
Proof.
  unfold timecodes_read. intros Hin Htc.
  destruct (compute_trim_details o n fps) as [d | e] eqn:E;
    [| by apply compute_trim_details_raise in E as ->].
  exfalso. revert E. unfold compute_trim_details.
  repeat match goal with
         | |- context [tc_to_frames ?t fps] =>
             let E := fresh "E" in
             destruct (tc_to_frames t fps) eqn:E; simpl; [| discriminate]
         end.
  intros _.
  repeat (apply elem_of_cons in Hin as [-> | Hin]; [congruence |]).
  by apply elem_of_nil in Hin.
Qed.

(** The record appended at index [i] does not depend on the records
    before it. *)
Lemma compare_iter_acc changes i :
  compare_iter old_edits new_edits fps changes i
  = (r ← compare_iter old_edits new_edits fps [] i; Ok (changes ++ r)).
Proof.
  unfold compare_iter.
  destruct (old_edits !! i) as [o |], (new_edits !! i) as [n |];
    simpl; try reflexivity.
  destruct (negb (reel o =? reel n)%string); [reflexivity |].
  destruct ((source_in o =? source_in n)%string
            && (source_out o =? source_out n)%string); [reflexivity |].
  by destruct (compute_trim_details o n fps).
Qed.

Lemma compare_iter_single i rs :
  compare_iter old_edits new_edits fps [] i = Ok rs → ∃ r, rs = [r].
Proof.
  unfold compare_iter.
  destruct (old_edits !! i) as [o |], (new_edits !! i) as [n |];
    simpl; try (intros [= <-]; eauto; fail); try discriminate.
  destruct (negb (reel o =? reel n)%string); [intros [= <-]; eauto |].
  destruct ((source_in o =? source_in n)%string
            && (source_out o =? source_out n)%string);
    [intros [= <-]; eauto |].
  destruct (compute_trim_details o n fps); simpl;
    [intros [= <-]; eauto | discriminate].
Qed.

(** The loop over [seq a k] appends one record per index, each computed
    from its index alone. *)
Lemma for_each_compare_ok k : ∀ a acc res,
  for_each (compare_iter old_edits new_edits fps) (seq a k) acc = Ok res →
  ∃ recs, res = acc ++ recs ∧ length recs = k
          ∧ ∀ j r, recs !! j = Some r →
              compare_iter old_edits new_edits fps [] (a + j) = Ok [r].
Proof.
  induction k as [| k IH]; intros a acc res; simpl.
  - intros [= <-]. exists []. rewrite app_nil_r. split_and!; [done.. |].
    intros j r Hj. by rewrite lookup_nil in Hj.
  - rewrite compare_iter_acc.
    destruct (compare_iter old_edits new_edits fps [] a) as [rs | e] eqn:E;
      simpl; [| discriminate].
    destruct (compare_iter_single _ _ E) as [r ->].
    intros (recs & -> & Hlen & Hrecs)%IH.
    exists (r :: recs). rewrite <- app_assoc. split_and!; [done | simpl; lia |].
    intros [| j] r' Hj; simpl in Hj.
    + injection Hj as <-. by rewrite Nat.add_0_r.
    + replace (a + S j)%nat with (S a + j)%nat by lia. by apply Hrecs.
Qed.

Lemma for_each_compare_total k : ∀ a acc,
  (∀ j, (j < k)%nat →
        ∃ r, compare_iter old_edits new_edits fps [] (a + j) = Ok [r]) →
  ∃ res, for_each (compare_iter old_edits new_edits fps) (seq a k) acc
         = Ok res.
Proof.
  induction k as [| k IH]; intros a acc H; simpl; [eauto |].
  rewrite compare_iter_acc.
  destruct (H 0%nat ltac:(lia)) as [r Hr]. rewrite Nat.add_0_r in Hr.
  rewrite Hr. simpl. apply IH. intros j Hj.
  destruct (H (S j) ltac:(lia)) as [r' Hr'].
  replace (a + S j)%nat with (S a + j)%nat in Hr' by lia. eauto.
Qed.

Lemma for_each_compare_raise k : ∀ a acc e,
  for_each (compare_iter old_edits new_edits fps) (seq a k) acc = Raise e →
  ∃ j, (j < k)%nat
       ∧ compare_iter old_edits new_edits fps [] (a + j) = Raise e.
Proof.
  induction k as [| k IH]; intros a acc e; simpl; [discriminate |].
  rewrite compare_iter_acc.
  destruct (compare_iter old_edits new_edits fps [] a) as [rs | e'] eqn:E;
    simpl.
  - intros (j & Hj & Hr)%IH. exists (S j). split; [lia |].
    by replace (a + S j)%nat with (S a + j)%nat by lia.
  - intros [= <-]. exists 0%nat. split; [lia |]. by rewrite Nat.add_0_r.
Qed.

Lemma compare_edls_ok_inv changes :
  compare_edls old_edits new_edits fps = Ok changes →
  length changes = (length old_edits `max` length new_edits)%nat
  ∧ ∀ i r, changes !! i = Some r →
           compare_iter old_edits new_edits fps [] i = Ok [r].
Proof.
  unfold compare_edls. intros (recs & -> & Hlen & Hrecs)%for_each_compare_ok.
  split; [done |]. intros i r Hi. by apply (Hrecs i).
Qed.

Lemma compare_edls_raise e :
  compare_edls old_edits new_edits fps = Raise e → e = ValueError.
Proof.
  unfold compare_edls. intros (j & Hj & Hr)%for_each_compare_raise.
  simpl in Hr. revert Hr. unfold compare_iter.
  destruct (old_edits !! j) as [o |] eqn:Eo,
           (new_edits !! j) as [n |] eqn:En; simpl; try discriminate.
  - destruct (negb (reel o =? reel n)%string); [discriminate |].
    destruct ((source_in o =? source_in n)%string
              && (source_out o =? source_out n)%string); [discriminate |].
    destruct (compute_trim_details o n fps) eqn:E; simpl; [discriminate |].
    intros [= <-]. by apply compute_trim_details_raise in E.
  - apply lookup_ge_None in Eo, En. lia.
Qed.

(** The record for an index where both edits are present. *)
Lemma compare_iter_both i o n r :
  old_edits !! i = Some o → new_edits !! i = Some n →
  compare_iter old_edits new_edits fps [] i = Ok [r] →
  c_old r = Some o ∧ c_new r = Some n ∧
  if decide (reel o = reel n) then
    if decide (source_in o = source_in n ∧ source_out o = source_out n)
    then c_type r = UNCHANGED ∧ c_details r = ∅
    else c_type r = CHANGED
         ∧ compute_trim_details o n fps = Ok (c_details r)
  else c_type r = NEW
       ∧ c_details r = {[ "description" := VStr "Clip added" ]}.
Proof.
  intros Ho Hn. unfold compare_iter. rewrite Ho, Hn.
  destruct (String.eqb_spec (reel o) (reel n)) as [Hr | Hr]; simpl.
  - rewrite decide_True by done.
    destruct (String.eqb_spec (source_in o) (source_in n)) as [Hi | Hi],
             (String.eqb_spec (source_out o) (source_out n)) as [Ho' | Ho'];
      simpl.
    + rewrite decide_True by done. by intros [= <-].
    + rewrite decide_False by tauto.
      destruct (compute_trim_details o n fps); simpl; [| discriminate].
      by intros [= <-].
    + rewrite decide_False by tauto.
      destruct (compute_trim_details o n fps); simpl; [| discriminate].
      by intros [= <-].
    + rewrite decide_False by tauto.
      destruct (compute_trim_details o n fps); simpl; [| discriminate].
      by intros [= <-].
  - rewrite decide_False by done. by intros [= <-].
Qed.

Lemma compare_iter_ends i r :
  compare_iter old_edits new_edits fps [] i = Ok [r] →
  c_old r = old_edits !! i ∧ c_new r = new_edits !! i.
Proof.
  destruct (old_edits !! i) as [o |] eqn:Eo,
           (new_edits !! i) as [n |] eqn:En.
  - intros H. by destruct (compare_iter_both i o n r Eo En H) as (-> & -> & _).
  - unfold compare_iter. rewrite Eo, En. by intros [= <-].
  - unfold compare_iter. rewrite Eo, En. by intros [= <-].
  - unfold compare_iter. rewrite Eo, En. discriminate.
Qed.

End comparator.

Section comparator_claims.

Implicit Types (old_edits new_edits : list Edit) (fps : Z).

(** C2.  The record at every index follows the five rules in order: NEW
    with detail [{description: "Clip added"}] when the old edit is
    absent; DELETED with no detail when the new edit is absent; and, with
    both present, NEW with that detail when the reels differ, otherwise
    UNCHANGED with an empty detail when source in and source out are both
    equal, otherwise CHANGED with the trim-detail mapping, the record
    carrying both edits in each of these three cases. *)
Theorem compare_edls_precedence old_edits new_edits fps changes :
  compare_edls old_edits new_edits fps = Ok changes →
  ∀ i, (i < length old_edits `max` length new_edits)%nat →
  ∃ r, changes !! i = Some r ∧
    match old_edits !! i, new_edits !! i with
    | None, Some n =>
        r = mkChange NEW None (Some n)
              {[ "description" := VStr "Clip added" ]}
    | Some o, None => r = mkChange DELETED (Some o) None ∅
    | Some o, Some n =>
        c_old r = Some o ∧ c_new r = Some n ∧
        if decide (reel o = reel n) then
          if decide (source_in o = source_in n ∧ source_out o = source_out n)
          then c_type r = UNCHANGED ∧ c_details r = ∅
          else c_type r = CHANGED
               ∧ compute_trim_details o n fps = Ok (c_details r)
        else c_type r = NEW
             ∧ c_details r = {[ "description" := VStr "Clip added" ]}
    | None, None => False
    end.
Proof.
  intros [Hlen Hrec]%compare_edls_ok_inv i Hi.
  destruct (lookup_lt_is_Some_2 changes i) as [r Hr]; [lia |].
  exists r. split; [done |]. apply Hrec in Hr.
  destruct (old_edits !! i) as [o |] eqn:Eo,
           (new_edits !! i) as [n |] eqn:En.
  - by apply (compare_iter_both old_edits new_edits fps i).
  - revert Hr. unfold compare_iter. rewrite Eo, En. by intros [= <-].
  - revert Hr. unfold compare_iter. rewrite Eo, En. by intros [= <-].
  - apply lookup_ge_None in Eo, En. lia.
Qed.

Lemma compare_edls_records old_edits new_edits fps changes :
  compare_edls old_edits new_edits fps = Ok changes →
  length changes = (length old_edits `max` length new_edits)%nat
  ∧ ∀ i, (i < length old_edits `max` length new_edits)%nat →
         ∃ r, changes !! i = Some r
              ∧ c_old r = old_edits !! i ∧ c_new r = new_edits !! i.
Proof.
  intros [Hlen Hrec]%compare_edls_ok_inv. split; [done |].
  intros i Hi. destruct (lookup_lt_is_Some_2 changes i) as [r Hr]; [lia |].
  exists r. split; [done |]. by apply (compare_iter_ends _ _ fps), Hrec.
Qed.

Lemma compare_edls_returns old_edits new_edits fps :
  forallb (timecodes_parse fps) old_edits = true →
  forallb (timecodes_parse fps) new_edits = true →
  ∃ changes, compare_edls old_edits new_edits fps = Ok changes.
Proof.
  intros Hold Hnew. apply for_each_compare_total. intros j Hj. simpl.
  rewrite forallb_forall in Hold, Hnew. unfold compare_iter.
  destruct (old_edits !! j) as [o |] eqn:Eo,
           (new_edits !! j) as [n |] eqn:En; simpl; eauto.
  - destruct (negb (reel o =? reel n)%string); [eauto |].
    destruct ((source_in o =? source_in n)%string
              && (source_out o =? source_out n)%string); [eauto |].
    destruct (compute_trim_details_ok fps o n) as [d ->]; simpl; eauto.
    + apply Hold, list_elem_of_In, list_elem_of_lookup; eauto.
    + apply Hnew, list_elem_of_In, list_elem_of_lookup; eauto.
  - apply lookup_ge_None in Eo, En. lia.
Qed.

(** C5.  Whenever [compare_edls] returns, it returns exactly
    [max(len(old), len(new))] records, the record at index [i] being the
    one for [old[i]] and [new[i]]; and it returns whenever the timecodes
    of all edits can be read. *)
Theorem compare_edls_length old_edits new_edits fps :
  (∀ changes,
     compare_edls old_edits new_edits fps = Ok changes →
     length changes = (length old_edits `max` length new_edits)%nat
     ∧ ∀ i, (i < length old_edits `max` length new_edits)%nat →
            ∃ r, changes !! i = Some r
                 ∧ c_old r = old_edits !! i ∧ c_new r = new_edits !! i)
  ∧ (forallb (timecodes_parse fps) old_edits = true →
     forallb (timecodes_parse fps) new_edits = true →
     ∃ changes, compare_edls old_edits new_edits fps = Ok changes).
Proof.
  split; [apply compare_edls_records | apply compare_edls_returns].
Qed.

(** Two one-entry lists with the same reel and different source in. *)
Lemma compare_edls_single_changed o n fps d :
  reel o = reel n → (source_in o =? source_in n)%string = false →
  compute_trim_details o n fps = Ok d →
  compare_edls [o] [n] fps = Ok [mkChange CHANGED (Some o) (Some n) d].
Proof.
  intros Hr Hs Hd. unfold compare_edls.
  change (seq 0 (length [o] `max` length [n])) with [0%nat].
  unfold for_each, compare_iter.
  change ([o] !! 0%nat) with (Some o). change ([n] !! 0%nat) with (Some n).
  cbv beta iota zeta. by rewrite Hr, String.eqb_refl, Hs, Hd.
Qed.

End comparator_claims.

Section trim_details.

Implicit Types (o n : Edit) (fps : Z).

(** What [compute_trim_details] stores under the keys the renderer and
    the examples read. *)
Lemma compute_trim_details_lookup o n fps d :
  compute_trim_details o n fps = Ok d →
  ∃ osi oso nsi nso ori oro nri nro,
    tc_to_frames (source_in o) fps = Ok osi
    ∧ tc_to_frames (source_out o) fps = Ok oso
    ∧ tc_to_frames (source_in n) fps = Ok nsi
    ∧ tc_to_frames (source_out n) fps = Ok nso
    ∧ tc_to_frames (record_in o) fps = Ok ori
    ∧ tc_to_frames (record_out o) fps = Ok oro
    ∧ tc_to_frames (record_in n) fps = Ok nri
    ∧ tc_to_frames (record_out n) fps = Ok nro
    ∧ d !! "time_diff_frames" = Some (VInt ((nro - nri) - (oro - ori)))
    ∧ d !! "old_length_frames" = Some (VInt (oro - ori))
    ∧ d !! "new_length_frames" = Some (VInt (nro - nri))
    ∧ d !! "head_change" = VStr <$> head_action (nsi - osi)
    ∧ d !! "head_from"
      = (λ _, VStr (source_in o)) <$> head_action (nsi - osi)
    ∧ d !! "head_to"
      = (λ _, VStr (source_in n)) <$> head_action (nsi - osi)
    ∧ d !! "tail_change" = VStr <$> tail_action (nso - oso)
    ∧ d !! "tail_from"
      = (λ _, VStr (source_out o)) <$> tail_action (nso - oso)
    ∧ d !! "tail_to"
      = (λ _, VStr (source_out n)) <$> tail_action (nso - oso).
Proof.
  unfold compute_trim_details, head_action, tail_action.
  destruct (tc_to_frames (source_in o) fps) as [osi |]; [| discriminate].
  destruct (tc_to_frames (source_out o) fps) as [oso |]; [| discriminate].
  destruct (tc_to_frames (source_in n) fps) as [nsi |]; [| discriminate].
  destruct (tc_to_frames (source_out n) fps) as [nso |]; [| discriminate].
  destruct (tc_to_frames (record_in o) fps) as [ori |]; [| discriminate].
  destruct (tc_to_frames (record_out o) fps) as [oro |]; [| discriminate].
  destruct (tc_to_frames (record_in n) fps) as [nri |]; [| discriminate].
  destruct (tc_to_frames (record_out n) fps) as [nro |]; [| discriminate].
  simpl. intros [= <-]. exists osi, oso, nsi, nso, ori, oro, nri, nro.
  generalize (nro - nri - (oro - ori)) (oro - ori) (nro - nri).
  intros td ol nl.
  split_and!; try reflexivity;
    destruct (nsi - osi <? 0), (nsi - osi >? 0),
             (nso - oso >? 0), (nso - oso <? 0); reflexivity.
Qed.

End trim_details.

Section comparator_examples.

Implicit Types (old_edits new_edits : list Edit) (fps : Z).

Lemma trim_clause_present label ck fk tk (d : gmap string value) parts :
  is_Some (d !! ck) →
  trim_clause label ck fk tk d = Ok parts → length parts = 1%nat.
Proof.
  intros [v Hv]. unfold trim_clause. rewrite Hv.
  destruct (getitem d fk); simpl; [| discriminate].
  destruct (getitem d tk); simpl; [| discriminate].
  by intros [= <-].
Qed.

Lemma desc_parts_with_clause (d : gmap string value) fps parts :
  is_Some (d !! "head_change") ∨ is_Some (d !! "tail_change") →
  desc_parts d fps = Ok parts → (2 ≤ length parts)%nat.
Proof.
  intros Hd. unfold desc_parts.
  destruct (trim_clause "HEAD" "head_change" "head_from" "head_to" d)
    as [hd |] eqn:Eh; simpl; [| discriminate].
  destruct (trim_clause "TAIL" "tail_change" "tail_from" "tail_to" d)
    as [tl |] eqn:Et; simpl; [| discriminate].
  match goal with
  | |- mbind _ ?x = _ → _ => destruct x as [ls |]
  end; simpl; [| discriminate].
  intros [= <-]. simpl. rewrite !length_app.
  destruct Hd as [Hd | Hd].
  - apply (trim_clause_present _ _ _ _ _ _ Hd) in Eh. lia.
  - apply (trim_clause_present _ _ _ _ _ _ Hd) in Et. lia.
Qed.

(** C8.  A CHANGED record whose four source timecodes are valid
    [HH:MM:SS:FF] timecodes at [fps] has [head_change] or [tail_change]
    in its detail mapping, so its description never consists of the
    "No time difference" part alone. *)
Theorem changed_has_head_or_tail old_edits new_edits fps changes i r o n :
  compare_edls old_edits new_edits fps = Ok changes →
  changes !! i = Some r →
  c_type r = CHANGED → c_old r = Some o → c_new r = Some n →
  valid_timecode (source_in o) fps = true →
  valid_timecode (source_out o) fps = true →
  valid_timecode (source_in n) fps = true →
  valid_timecode (source_out n) fps = true →
  (is_Some (c_details r !! "head_change")
   ∨ is_Some (c_details r !! "tail_change"))
  ∧ desc_parts (c_details r) fps
    ≠ Ok ["No time difference. Shifted within itself. "].
Proof.
  intros [_ Hrec]%compare_edls_ok_inv Hr Hty Hco Hcn Vsi Vso Vni Vno.
  apply Hrec in Hr.
  destruct (compare_iter_ends _ _ _ _ _ Hr) as [Ho Hn].
  rewrite Hco in Ho. rewrite Hcn in Hn. symmetry in Ho, Hn.
  destruct (compare_iter_both _ _ _ _ _ _ _ Ho Hn Hr) as (_ & _ & Hcase).
  destruct (decide (reel o = reel n)); [| destruct Hcase; congruence].
  destruct (decide (source_in o = source_in n
                    ∧ source_out o = source_out n)) as [| Hne];
    [destruct Hcase; congruence |].
  destruct Hcase as [_ Hd].
  apply compute_trim_details_lookup in Hd
    as (osi & oso & nsi & nso & ? & ? & ? & ?
        & Eosi & Eoso & Ensi & Enso & _ & _ & _ & _ & _ & _ & _
        & Hh & _ & _ & Ht & _ & _).
  assert (is_Some (c_details r !! "head_change")
          ∨ is_Some (c_details r !! "tail_change")) as Hsome.
  { rewrite Hh, Ht. unfold head_action, tail_action.
    destruct (Z.ltb_spec (nsi - osi) 0); [left; eauto |].
    destruct (Z.gtb_spec (nsi - osi) 0); [left; eauto |].
    destruct (Z.gtb_spec (nso - oso) 0); [right; eauto |].
    destruct (Z.ltb_spec (nso - oso) 0); [right; eauto |].
    exfalso. apply Hne.
    assert (nsi = osi) as -> by lia. assert (nso = oso) as -> by lia.
    split; eapply valid_timecode_inj; eauto. }
  split; [done |]. intros Hparts.
  apply (desc_parts_with_clause _ _ _ Hsome) in Hparts. simpl in Hparts. lia.
Qed.

Lemma changed_has_head_or_tail_witness :
  ∃ changes r,
    compare_edls [sample_old] [sample_new] 24 = Ok changes
    ∧ changes !! 0%nat = Some r
    ∧ c_type r = CHANGED
    ∧ (is_Some (c_details r !! "head_change")
       ∨ is_Some (c_details r !! "tail_change"))
    ∧ desc_parts (c_details r) 24
      ≠ Ok ["No time difference. Shifted within itself. "].
Proof.
  pose (o := sample_old). pose (n := sample_new).
  destruct (compute_trim_details_ok 24 o n) as [d Hd];
    [reflexivity | reflexivity |].
  pose proof (compare_edls_single_changed o n 24 d eq_refl eq_refl Hd) as E.
  exists [mkChange CHANGED (Some o) (Some n) d],
         (mkChange CHANGED (Some o) (Some n) d).
  split_and!; [done | done | done | ..];
    apply (changed_has_head_or_tail [o] [n] 24 _ 0 _ o n E); reflexivity.
Defined.

End comparator_examples.


Section example2.

(** The detail mapping of Example 2 and the description built from it. *)
Lemma example2_details ev rl clip d :
  compute_trim_details (example2_old ev rl clip) (example2_new ev rl clip) 24
  = Ok d →
  d !! "head_change" = Some (VStr "trimmed")
  ∧ d !! "time_diff_frames" = Some (VInt 0)
  ∧ desc_parts d 24
    = Ok ["No time difference. Shifted within itself. ";
          " HEAD trimmed from 01:00:00:00 to 01:00:02:00."].
Proof.
  intros (osi & oso & nsi & nso & ori & oro & nri & nro
          & Eosi & Eoso & Ensi & Enso & Eori & Eoro & Enri & Enro
          & Htd & Hol & Hnl & Hhc & Hhf & Hht & Htc & Htf & Htt)
         %compute_trim_details_lookup.
  vm_compute in Eosi, Eoso, Ensi, Enso, Eori, Eoro, Enri, Enro.
  injection Eosi as <-. injection Eoso as <-. injection Ensi as <-.
  injection Enso as <-. injection Eori as <-. injection Eoro as <-.
  injection Enri as <-. injection Enro as <-.
  change (d !! "time_diff_frames" = Some (VInt 0)) in Htd.
  change (d !! "head_change" = Some (VStr "trimmed")) in Hhc.
  change (d !! "head_from" = Some (VStr "01:00:00:00")) in Hhf.
  change (d !! "head_to" = Some (VStr "01:00:02:00")) in Hht.
  change (d !! "tail_change" = None) in Htc.
  split_and!; [done | done |].
  unfold desc_parts, trim_clause, getitem.
  rewrite Htd, Hhc, Hhf, Hht, Htc. reflexivity.
Qed.

(** C1 (as the code behaves).  For the edits of Example 2 at 24 fps the
    position is CHANGED with [head_change = "trimmed"]; the record in and
    out are unchanged, so [time_diff_frames] is [0] and the rendered line
    opens with the "No time difference" sentence followed by the HEAD
    clause. *)
Theorem example2_pure_trim ev rl clip :
  let o := example2_old ev rl clip in
  let n := example2_new ev rl clip in
  ∃ d,
    compare_edls [o] [n] 24 = Ok [mkChange CHANGED (Some o) (Some n) d]
    ∧ d !! "head_change" = Some (VStr "trimmed")
    ∧ d !! "time_diff_frames" = Some (VInt 0)
    ∧ output_change_list [mkChange CHANGED (Some o) (Some n) d] 24
      = ([output_line "Changed" "01:00:00:00" "yellow"
            ("No time difference. Shifted within itself. "
             +:+ " HEAD trimmed from 01:00:00:00 to 01:00:02:00."
             +:+ " (" +:+ clip +:+ ")")], None).
Proof.
  intros o n.
  destruct (compute_trim_details_ok 24 o n) as [d Hd];
    [reflexivity | reflexivity |].
  destruct (example2_details ev rl clip d Hd) as (Hhc & Htd & Hparts).
  exists d. split_and!; [| done | done |].
  - by apply compare_edls_single_changed.
  - unfold output_change_list, write_changes, render_change.
    cbn [c_type c_new c_old c_details display_edit].
    rewrite Hparts. reflexivity.
Qed.

(** C1 as stated fails: on the inputs of Example 2 the time difference
    is [0], not [-48], and the rendered line does not start with the
    "Time difference -48 frames" text. *)
Lemma example2_time_diff_not_minus_48 :
  let o := sample_old in
  let n := sample_new in
  ∃ d line,
    compare_edls [o] [n] 24 = Ok [mkChange CHANGED (Some o) (Some n) d]
    ∧ d !! "time_diff_frames" = Some (VInt 0)
    ∧ d !! "time_diff_frames" ≠ Some (VInt (-48))
    ∧ output_change_list [mkChange CHANGED (Some o) (Some n) d] 24
      = ([line], None)
    ∧ Py.strip_prefix
        ("Changed" +:+ Py.tab +:+ "01:00:00:00" +:+ Py.tab +:+ "TC"
         +:+ Py.tab +:+ "yellow" +:+ Py.tab
         +:+ "Time difference -48 frames  [-48 frames]."
         +:+ " HEAD trimmed from 01:00:00:00 to 01:00:02:00.") line
      = None.
Proof.
  intros o n.
  destruct (compute_trim_details_ok 24 o n) as [d Hd];
    [reflexivity | reflexivity |].
  destruct (example2_details _ _ _ d Hd) as (Hhc & Htd & Hparts).
  exists d. eexists. split_and!.
  - by apply compare_edls_single_changed.
  - done.
  - rewrite Htd. discriminate.
  - unfold output_change_list, write_changes, render_change.
    cbn [c_type c_new c_old c_details display_edit].
    rewrite Hparts. reflexivity.
  - reflexivity.
Qed.

End example2.

Section comparator_witnesses.

Local Abbreviation o := sample_old.
Local Abbreviation n := sample_new.

Lemma compare_edls_precedence_witness :
  ∃ changes r,
    compare_edls [o] [n] 24 = Ok changes
    ∧ changes !! 0%nat = Some r
    ∧ c_old r = Some o ∧ c_new r = Some n ∧ c_type r = CHANGED
    ∧ compute_trim_details o n 24 = Ok (c_details r).
Proof.
  destruct (compute_trim_details_ok 24 o n) as [d Hd];
    [reflexivity | reflexivity |].
  pose proof (compare_edls_single_changed o n 24 d eq_refl eq_refl Hd) as E.
  destruct (compare_edls_precedence [o] [n] 24 _ E 0%nat)
    as (r & Hr & Hcase); [simpl; lia |].
  change ([o] !! 0%nat) with (Some o) in Hcase.
  change ([n] !! 0%nat) with (Some n) in Hcase.
  cbv beta iota in Hcase. destruct Hcase as (Ho & Hn & Hcase).
  rewrite decide_True in Hcase by reflexivity.
  rewrite decide_False in Hcase by (intros [? _]; discriminate).
  destruct Hcase as [Hty Hdet]. eauto 10.
Defined.

Lemma compare_edls_length_witness :
  ∃ changes,
    compare_edls [o; o] [n] 24 = Ok changes
    ∧ length changes = 2%nat
    ∧ ∀ i, (i < 2)%nat →
           ∃ r, changes !! i = Some r
                ∧ c_old r = [o; o] !! i ∧ c_new r = [n] !! i.
Proof.
  destruct (compare_edls_length [o; o] [n] 24) as [Hlen Htotal].
  destruct (Htotal eq_refl eq_refl) as [changes E].
  exists changes. split; [exact E |]. exact (Hlen changes E).
Defined.

End comparator_witnesses.

(** ** Malformed timecodes *)

Section malformed.

Lemma tc_to_frames_ok_inv tc fps v :
  tc_to_frames tc fps = Ok v →
  ∃ c0 c1 c2 c3 h m s f,
    Py.split_on ":" tc = [c0; c1; c2; c3]
    ∧ Py.int c0 = Ok h ∧ Py.int c1 = Ok m
    ∧ Py.int c2 = Ok s ∧ Py.int c3 = Ok f
    ∧ v = ((h * 60 + m) * 60 + s) * fps + f.
Proof.
  unfold tc_to_frames.
  destruct (Py.split_on ":" tc) as [| c0 [| c1 [| c2 [| c3 [| ? ?]]]]];
    try discriminate.
  destruct (Py.int c0) as [h |] eqn:E0; simpl; [| discriminate].
  destruct (Py.int c1) as [m |] eqn:E1; simpl; [| discriminate].
  destruct (Py.int c2) as [s |] eqn:E2; simpl; [| discriminate].
  destruct (Py.int c3) as [f |] eqn:E3; simpl; [| discriminate].
  intros [= <-]. eauto 15.
Qed.

Lemma tc_to_frames_ok tc fps c0 c1 c2 c3 h m s f :
  Py.split_on ":" tc = [c0; c1; c2; c3] →
  Py.int c0 = Ok h → Py.int c1 = Ok m →
  Py.int c2 = Ok s → Py.int c3 = Ok f →
  tc_to_frames tc fps = Ok (((h * 60 + m) * 60 + s) * fps + f).
Proof.
  intros Hsplit E0 E1 E2 E3. unfold tc_to_frames.
  by rewrite Hsplit, E0, E1, E2, E3.
Qed.

Lemma malformed_iff_raise tc fps :
  malformed_timecode tc ↔ tc_to_frames tc fps = Raise ValueError.
Proof.
  split.
  - intros Hbad.
    destruct (tc_to_frames tc fps) as [v | e] eqn:E;
      [| by apply tc_to_frames_raise in E as ->].
    exfalso.
    apply tc_to_frames_ok_inv in E
      as (c0 & c1 & c2 & c3 & h & m & s & f & Hs & E0 & E1 & E2 & E3 & _).
    destruct Hbad as [Hlen | (c & Hc & Hint)]; rewrite Hs in *.
    + by apply Hlen.
    + repeat (apply elem_of_cons in Hc as [-> | Hc];
              [rewrite ?E0, ?E1, ?E2, ?E3 in Hint; discriminate Hint |]).
      by apply elem_of_nil in Hc.
  - unfold tc_to_frames, malformed_timecode.
    destruct (Py.split_on ":" tc) as [| c0 [| c1 [| c2 [| c3 [| ? ?]]]]];
      try (intros _; left; simpl; lia).
    intros H. right.
    destruct (Py.int c0) eqn:E0;
      [| exists c0; rewrite E0; split; [set_solver | done]].
    destruct (Py.int c1) eqn:E1;
      [| exists c1; rewrite E1; split; [set_solver | done]].
    destruct (Py.int c2) eqn:E2;
      [| exists c2; rewrite E2; split; [set_solver | done]].
    destruct (Py.int c3) eqn:E3;
      [| exists c3; rewrite E3; split; [set_solver | done]].
    discriminate H.
Qed.

Lemma main_compare_raise prog old_file new_file output_file fs
    old_edits new_edits e :
  parse (mkEDLParser 24) fs old_file = Ok old_edits →
  parse (mkEDLParser 24) fs new_file = Ok new_edits →
  compare_edls old_edits new_edits 24 = Raise e →
  main [prog; old_file; new_file; output_file] fs = (fs, Uncaught e).
Proof. intros Ho Hn Hc. unfold main. by rewrite Ho, Hn, Hc. Qed.

Lemma compare_edls_malformed old_edits new_edits fps i o n tc :
  old_edits !! i = Some o → new_edits !! i = Some n →
  reel o = reel n →
  ¬ (source_in o = source_in n ∧ source_out o = source_out n) →
  tc ∈ timecodes_read o n → malformed_timecode tc →
  compare_edls old_edits new_edits fps = Raise ValueError.
Proof.
  intros Ho Hn Hr Hs Htc Hbad.
  destruct (compare_edls old_edits new_edits fps) as [changes | e] eqn:E;
    [| by apply compare_edls_raise in E as ->].
  exfalso.
  destruct (compare_edls_ok_inv _ _ _ _ E) as [Hlen Hrec].
  destruct (lookup_lt_is_Some_2 changes i) as [r Hri].
  { apply lookup_lt_Some in Ho. lia. }
  apply Hrec in Hri.
  destruct (compare_iter_both _ _ _ _ _ _ _ Ho Hn Hri) as (_ & _ & Hcase).
  rewrite decide_True, decide_False in Hcase by done.
  destruct Hcase as [_ Hd].
  apply (malformed_iff_raise tc fps) in Hbad.
  rewrite (compute_trim_details_raises fps o n tc Htc Hbad) in Hd.
  discriminate Hd.
Qed.

(** C7.  [tc_to_frames] raises the malformed-input error exactly when
    the string does not split on [:] into four components or a
    component is not an integer literal, and otherwise returns
    [((h*60+m)*60+s)*fps + f]; a malformed timecode read while comparing
    makes [compare_edls] raise, and the run ends with that error without
    writing the output file. *)
Theorem malformed_timecode_aborts tc fps :
  (malformed_timecode tc ↔ tc_to_frames tc fps = Raise ValueError)
  ∧ (∀ c0 c1 c2 c3 h m s f,
       Py.split_on ":" tc = [c0; c1; c2; c3] →
       Py.int c0 = Ok h → Py.int c1 = Ok m →
       Py.int c2 = Ok s → Py.int c3 = Ok f →
       tc_to_frames tc fps = Ok (((h * 60 + m) * 60 + s) * fps + f))
  ∧ (malformed_timecode tc →
     ∀ old_edits new_edits i o n,
       old_edits !! i = Some o → new_edits !! i = Some n →
       reel o = reel n →
       ¬ (source_in o = source_in n ∧ source_out o = source_out n) →
       tc ∈ timecodes_read o n →
       compare_edls old_edits new_edits fps = Raise ValueError
       ∧ ∀ prog old_file new_file output_file fs,
           parse (mkEDLParser 24) fs old_file = Ok old_edits →
           parse (mkEDLParser 24) fs new_file = Ok new_edits →
           main [prog; old_file; new_file; output_file] fs
           = (fs, Uncaught ValueError)).
Proof.
  split_and!.
  - apply malformed_iff_raise.
  - intros. by eapply tc_to_frames_ok.
  - intros Hbad old_edits new_edits i o n Ho Hn Hr Hs Htc. split.
    + by eapply compare_edls_malformed.
    + intros prog old_file new_file output_file fs Hpo Hpn.
      apply (main_compare_raise _ _ _ _ _ old_edits new_edits _ Hpo Hpn).
      by eapply compare_edls_malformed.
Qed.

End malformed.

Section malformed_witness.

Local Abbreviation bad := "01:00:0x:00".
Local Abbreviation o := sample_bad_old.
Local Abbreviation n := sample_bad_new.
Local Abbreviation fs := sample_fs.

Lemma malformed_timecode_aborts_witness :
  malformed_timecode bad
  ∧ tc_to_frames bad 24 = Raise ValueError
  ∧ tc_to_frames "01:00:02:00" 24 = Ok 86448
  ∧ compare_edls [o] [n] 24 = Raise ValueError
  ∧ main ["changelist.py"; "old.edl"; "new.edl"; "out.txt"] fs
    = (fs, Uncaught ValueError).
Proof.
  assert (malformed_timecode bad) as Hbad.
  { right. exists "0x". split; [| reflexivity].
    change ("0x" ∈ ["01"; "00"; "0x"; "00"]). repeat constructor. }
  destruct (malformed_timecode_aborts bad 24) as (Hiff & _ & Habort).
  destruct (malformed_timecode_aborts "01:00:02:00" 24) as (_ & Hok & _).
  destruct (Habort Hbad [o] [n] 0%nat o n eq_refl eq_refl eq_refl)
    as [Hcmp Hmain].
  { intros [? _]. discriminate. }
  { change (bad ∈ bad :: tail (timecodes_read o n)). constructor. }
  split_and!; [exact Hbad | by apply Hiff | | exact Hcmp |].
  - apply (Hok "01" "00" "02" "00" 1 0 2 0); reflexivity.
  - apply Hmain; reflexivity.
Defined.

End malformed_witness.

(** ** Renderer *)

Section renderer.

Implicit Types (changes : list Change) (fps : Z) (written : list string).

Lemma render_change_skipped c fps :
  reportable c = false → render_change c fps = Ok None.
Proof. unfold reportable, render_change. by destruct (c_type c). Qed.

Lemma render_change_line c fps line :
  render_change c fps = Ok (Some line) → reportable c = true.
Proof. unfold reportable, render_change. by destruct (c_type c). Qed.

Lemma write_changes_filter changes fps written :
  write_changes changes fps written
  = write_changes (List.filter reportable changes) fps written.
Proof.
  revert written. induction changes as [| c rest IH]; intros written;
    [done |].
  simpl. destruct (reportable c) eqn:Hc.
  - simpl. destruct (render_change c fps) as [[line |] |]; auto.
  - by rewrite (render_change_skipped c fps Hc).
Qed.

Lemma write_changes_app l1 l2 fps written :
  write_changes (l1 ++ l2) fps written
  = match write_changes l1 fps written with
    | (written', None) => write_changes l2 fps written'
    | (written', Some e) => (written', Some e)
    end.
Proof.
  revert written. induction l1 as [| c rest IH]; intros written; [done |].
  simpl. destruct (render_change c fps) as [[line |] |]; auto.
Qed.

Lemma write_changes_all_skipped changes fps written :
  Forall (λ c, reportable c = false) changes →
  write_changes changes fps written = (written, None).
Proof.
  induction 1 as [| c rest Hc _ IH]; [done |].
  simpl. by rewrite (render_change_skipped c fps Hc).
Qed.

(** Every line written is the rendering of a NEW or CHANGED record. *)
Lemma write_changes_lines changes fps : ∀ written written' err,
  write_changes changes fps written = (written', err) →
  ∃ lines, written' = written ++ lines
     ∧ ∀ line, line ∈ lines →
         ∃ c, c ∈ changes ∧ reportable c = true
              ∧ render_change c fps = Ok (Some line).
Proof.
  induction changes as [| c rest IH]; intros written written' err; simpl.
  - intros [= <- <-]. exists []. rewrite app_nil_r. split; [done |].
    intros line Hl. by apply elem_of_nil in Hl.
  - destruct (render_change c fps) as [[line |] | e] eqn:Ec.
    + intros (lines & -> & Hl)%IH. exists (line :: lines).
      rewrite <- app_assoc. split; [done |].
      intros l [-> | Hin]%elem_of_cons.
      * exists c. split_and!; [set_solver | | done].
        by eapply render_change_line.
      * destruct (Hl l Hin) as (c' & ? & ? & ?). exists c'.
        split_and!; [set_solver | done | done].
    + intros (lines & -> & Hl)%IH. exists lines. split; [done |].
      intros l Hin. destruct (Hl l Hin) as (c' & ? & ? & ?). exists c'.
      split_and!; [set_solver | done | done].
    + intros [= <- <-]. exists []. rewrite app_nil_r. split; [done |].
      intros line Hl. by apply elem_of_nil in Hl.
Qed.

(** The records past the end of the new list are DELETED. *)
Lemma compare_edls_trailing_deleted old_edits new_edits fps changes i :
  compare_edls old_edits new_edits fps = Ok changes →
  (length new_edits ≤ i < length old_edits)%nat →
  ∃ r, changes !! i = Some r ∧ c_type r = DELETED.
Proof.
  intros [Hlen Hrec]%compare_edls_ok_inv Hi.
  destruct (lookup_lt_is_Some_2 changes i) as [r Hr]; [lia |].
  exists r. split; [done |]. apply Hrec in Hr. revert Hr.
  unfold compare_iter.
  destruct (lookup_lt_is_Some_2 old_edits i) as [o ->]; [lia |].
  rewrite (proj2 (lookup_ge_None new_edits i)) by lia.
  by intros [= <-].
Qed.

(** C6.  The renderer writes nothing for an UNCHANGED or DELETED record:
    its output is that of the NEW and CHANGED records alone, every line
    written renders one of those, and when the old list is longer than
    the new one the trailing DELETED records add no line and no error. *)
Theorem renderer_skips_unchanged_and_deleted changes fps :
  output_change_list changes fps
  = output_change_list (List.filter reportable changes) fps
  ∧ (∀ c, c_type c = UNCHANGED ∨ c_type c = DELETED →
          render_change c fps = Ok None)
  ∧ (∀ line, line ∈ (output_change_list changes fps).1 →
       ∃ c, c ∈ changes ∧ (c_type c = NEW ∨ c_type c = CHANGED)
            ∧ render_change c fps = Ok (Some line))
  ∧ (∀ old_edits new_edits,
       compare_edls old_edits new_edits fps = Ok changes →
       (length new_edits ≤ length old_edits)%nat →
       (∀ i, (length new_edits ≤ i < length old_edits)%nat →
             ∃ r, changes !! i = Some r ∧ c_type r = DELETED
                  ∧ render_change r fps = Ok None)
       ∧ output_change_list changes fps
         = output_change_list (take (length new_edits) changes) fps).
Proof.
  split_and!.
  - apply write_changes_filter.
  - intros c [Hc | Hc]; unfold render_change; by rewrite Hc.
  - intros line Hline.
    destruct (output_change_list changes fps) as [written err] eqn:E.
    apply write_changes_lines in E as (lines & -> & Hl).
    destruct (Hl line Hline) as (c & Hc & Hrep & Hren).
    exists c. split_and!; [done | | done].
    unfold reportable in Hrep. destruct (c_type c); auto; discriminate.
  - intros old_edits new_edits E Hlen.
    assert (∀ i, (length new_edits ≤ i < length old_edits)%nat →
                 ∃ r, changes !! i = Some r ∧ c_type r = DELETED
                      ∧ render_change r fps = Ok None) as Hdel.
    { intros i Hi.
      destruct (compare_edls_trailing_deleted _ _ _ _ i E Hi)
        as (r & Hr & Hty).
      exists r. split_and!; [done | done |].
      unfold render_change. by rewrite Hty. }
    split; [exact Hdel |].
    unfold output_change_list.
    rewrite <- (take_drop (length new_edits) changes) at 1.
    rewrite write_changes_app.
    destruct (write_changes (take (length new_edits) changes) fps [])
      as [written [e |]]; [done |].
    apply write_changes_all_skipped, Forall_forall.
    intros c (j & Hj)%list_elem_of_lookup.
    rewrite lookup_drop in Hj.
    destruct (compare_edls_ok_inv _ _ _ _ E) as [Hl _].
    destruct (Hdel (length new_edits + j)%nat) as (r & Hr & Hty & _).
    { apply lookup_lt_Some in Hj. lia. }
    rewrite Hj in Hr. injection Hr as <-.
    unfold reportable. by rewrite Hty.
Qed.

Lemma renderer_skips_unchanged_and_deleted_witness :
  let changes :=
    [mkChange UNCHANGED (Some sample_new) (Some sample_new) ∅;
     mkChange DELETED (Some sample_old) None ∅] in
  compare_edls [sample_new; sample_old] [sample_new] 24 = Ok changes
  ∧ (∃ r, changes !! 1%nat = Some r ∧ c_type r = DELETED
          ∧ render_change r 24 = Ok None)
  ∧ output_change_list changes 24
    = output_change_list (take 1 changes) 24
  ∧ output_change_list changes 24 = ([], None).
Proof.
  intros changes.
  assert (compare_edls [sample_new; sample_old] [sample_new] 24
          = Ok changes) as E by reflexivity.
  destruct (renderer_skips_unchanged_and_deleted changes 24)
    as (_ & _ & _ & Htrail).
  destruct (Htrail [sample_new; sample_old] [sample_new] E) as [Hdel Hout];
    [simpl; lia |].
  split_and!; [exact E | apply Hdel; simpl; lia | exact Hout | reflexivity].
Defined.

End renderer.

(** ** Parser *)

Section parser.

Implicit Types (lines : list string) (edits : list Edit).

Lemma parse_iter_acc lines edits i :
  parse_iter lines edits i = edits ++ parse_iter lines [] i.
Proof.
  unfold parse_iter. destruct (lines !! i) as [raw |];
    [| by rewrite app_nil_r].
  destruct (Py.match_event_number (Py.strip raw)); [| by rewrite app_nil_r].
  destruct (Py.split (Py.strip raw))
    as [| ? [| ? [| ? [| ? [| ? [| ? [| ? [| ? ?]]]]]]]];
    by rewrite ?app_nil_r.
Qed.

Lemma foldl_parse_iter lines idxs : ∀ edits,
  foldl (parse_iter lines) edits idxs
  = edits ++ foldl (parse_iter lines) [] idxs.
Proof.
  induction idxs as [| i rest IH]; intros edits; simpl.
  - by rewrite app_nil_r.
  - rewrite (IH (parse_iter lines edits i)), (IH (parse_iter lines [] i)).
    by rewrite (parse_iter_acc lines edits i), app_assoc.
Qed.

(** The edits of a file are those of the lines before line [i], then
    what line [i] gives, then those of the lines after it. *)
Lemma parse_lines_split self lines i :
  (i < length lines)%nat →
  parse_lines self lines
  = foldl (parse_iter lines) [] (seq 0 i)
    ++ parse_iter lines [] i
    ++ foldl (parse_iter lines) [] (seq (S i) (length lines - S i)).
Proof.
  intros Hi. unfold parse_lines.
  replace (length lines) with (i + S (length lines - S i))%nat at 1 by lia.
  rewrite seq_app, foldl_app. simpl.
  rewrite foldl_parse_iter, parse_iter_acc. by rewrite <- app_assoc.
Qed.

Lemma parse_iter_event_line lines i raw p0 p1 p2 p3 p4 p5 p6 p7 rest :
  lines !! i = Some raw →
  Py.match_event_number (Py.strip raw) = true →
  Py.split (Py.strip raw)
  = p0 :: p1 :: p2 :: p3 :: p4 :: p5 :: p6 :: p7 :: rest →
  parse_iter lines [] i
  = [mkEdit p0 p1 p4 p5 p6 p7 (lookahead_clip_name lines i)].
Proof. intros Hl Hm Hs. unfold parse_iter. by rewrite Hl, Hm, Hs. Qed.

(** C3 (as the code behaves).  A line that, stripped, starts with three
    or more digits and splits on whitespace into at least eight fields
    gives one edit, built from fields 0, 1, 4, 5, 6 and 7; fields 2 and 3
    and the fields after the eighth are not used.  The edit stands
    between the edits of the lines before and after it. *)
Theorem parse_emits_event_line self fs file_path content i raw
    p0 p1 p2 p3 p4 p5 p6 p7 rest :
  fs !! file_path = Some content →
  readlines content !! i = Some raw →
  Py.match_event_number (Py.strip raw) = true →
  Py.split (Py.strip raw)
  = p0 :: p1 :: p2 :: p3 :: p4 :: p5 :: p6 :: p7 :: rest →
  let lines := readlines content in
  parse self fs file_path
  = Ok (foldl (parse_iter lines) [] (seq 0 i)
        ++ mkEdit p0 p1 p4 p5 p6 p7 (lookahead_clip_name lines i)
        :: foldl (parse_iter lines) [] (seq (S i) (length lines - S i))).
Proof.
  intros Hfs Hl Hm Hs. cbv zeta. unfold parse. rewrite Hfs. f_equal.
  rewrite (parse_lines_split self (readlines content) i)
    by (by eapply lookup_lt_Some).
  by rewrite (parse_iter_event_line _ i raw _ _ _ _ _ _ _ _ _ Hl Hm Hs).
Qed.

Lemma parse_emits_event_line_witness :
  let content :=
    "TITLE: cut 2
001  AX V C 01:00:00:00 01:00:10:00 02:00:00:00 02:00:10:00 extra
* FROM CLIP NAME: shot one.mov" in
  parse (mkEDLParser 24) {[ "in.edl" := content ]} "in.edl"
  = Ok [mkEdit "001" "AX" "01:00:00:00" "01:00:10:00" "02:00:00:00"
          "02:00:10:00" "shot one.mov"].
Proof.
  intros content.
  apply (parse_emits_event_line (mkEDLParser 24) {[ "in.edl" := content ]}
           "in.edl" content 1
           "001  AX V C 01:00:00:00 01:00:10:00 02:00:00:00 02:00:10:00 extra
"
           "001" "AX" "V" "C" "01:00:00:00" "01:00:10:00" "02:00:00:00"
           "02:00:10:00" ["extra"]); reflexivity.
Defined.

(** C3 as stated fails: a line that starts with two digits and has eight
    fields gives no edit. *)
Lemma parse_skips_two_digit_event_number :
  let raw := "01 AX V C 01:00:00:00 01:00:10:00 01:00:00:00 01:00:10:00" in
  starts_with_digit (Py.strip raw) = true
  ∧ (8 ≤ length (Py.split (Py.strip raw)))%nat
  ∧ readlines raw = [raw]
  ∧ parse (mkEDLParser 24) {[ "in.edl" := raw ]} "in.edl" = Ok [].
Proof. intros raw. split_and!; [reflexivity | simpl; lia | done | done]. Qed.

(** C10.  The edits returned by [parse] depend on the text of the file
    alone: parsers built with different frame rates return the same
    list, also for two files with the same text. *)
Theorem parse_independent_of_fps :
  (∀ fps1 fps2 fs file_path,
     parse (mkEDLParser fps1) fs file_path
     = parse (mkEDLParser fps2) fs file_path)
  ∧ (∀ self1 self2 (fs1 fs2 : gmap string string) path1 path2,
       fs1 !! path1 = fs2 !! path2 →
       parse self1 fs1 path1 = parse self2 fs2 path2).
Proof.
  split.
  - reflexivity.
  - intros self1 self2 fs1 fs2 path1 path2 H. unfold parse. by rewrite H.
Qed.

Lemma parse_independent_of_fps_witness :
  parse (mkEDLParser 24) sample_fs "new.edl"
  = parse (mkEDLParser 25) (<["copy.edl" :=
      "001  AX V C 01:00:02:00 01:00:10:00 01:00:00:00 01:00:10:00"]> ∅)
      "copy.edl".
Proof.
  destruct parse_independent_of_fps as [_ H]. apply H. reflexivity.
Defined.

End parser.

(** * Further properties of the code *)

(** ** Timecode codec: signs, ranges and durations *)

Section codec_extra.

Lemma str_negative p : Py.str (Z.neg p) = String "-" (pretty (N.pos p)).
Proof. reflexivity. Qed.

Lemma int_str n : Py.int (Py.str n) = Ok n.
Proof.
  destruct (decide (0 ≤ n)) as [Hn | Hn]; [by apply int_str_nonneg |].
  destruct n as [| p | p]; [lia | lia |]. rewrite str_negative.
  pose proof (all_digits_pretty_N (N.pos p)) as Hd.
  pose proof (int_digits_pretty_N (N.pos p) false) as Hv.
  pose proof (pretty_N_nonempty (N.pos p)) as Hne.
  unfold Py.int, Py.strip.
  change (Py.lstrip (String "-" (pretty (N.pos p))))
    with (String "-" (pretty (N.pos p))).
  assert (Py.rstrip (String "-" (pretty (N.pos p)))
          = String "-" (pretty (N.pos p))) as ->.
  { simpl. rewrite (rstrip_digits _ Hd).
    by destruct (pretty (N.pos p)). }
  by rewrite Hv.
Qed.

Lemma fmt02d_negative n : n < 0 → Py.fmt02d n = Py.str n.
Proof.
  intros Hn. unfold Py.fmt02d.
  destruct (Z.leb_spec 0 n); [lia | done].
Qed.

Lemma int_fmt02d_any n : Py.int (Py.fmt02d n) = Ok n.
Proof.
  destruct (decide (0 ≤ n)) as [Hn | Hn]; [by apply int_fmt02d |].
  rewrite fmt02d_negative by lia. apply int_str.
Qed.

Lemma lacks_colon_fmt02d n : lacks ":" (Py.fmt02d n) = true.
Proof.
  destruct (decide (0 ≤ n)) as [Hn | Hn].
  - by apply all_digits_lacks_colon, all_digits_fmt02d.
  - rewrite fmt02d_negative by lia.
    destruct n as [| p | p]; [lia | lia |]. rewrite str_negative.
    change (lacks ":" (pretty (N.pos p)) = true).
    apply all_digits_lacks_colon, all_digits_pretty_N.
Qed.

Lemma tc_to_frames_tc_of_any h m s f fps :
  tc_to_frames (tc_of h m s f) fps = Ok (((h * 60 + m) * 60 + s) * fps + f).
Proof.
  unfold tc_to_frames, tc_of. change ":" with (String ":"%char "").
  rewrite split_on_four by apply lacks_colon_fmt02d.
  by rewrite !int_fmt02d_any.
Qed.

(** The timecode written for a frame count reads back as that count. *)
Lemma frames_to_tc_reads_back frames fps :
  fps ≠ 0 →
  ∃ tc, frames_to_tc frames fps = Ok tc ∧ tc_to_frames tc fps = Ok frames.
Proof.
  intros Hfps. rewrite frames_to_tc_nonzero by done.
  eexists. split; [reflexivity |]. rewrite tc_to_frames_tc_of_any. f_equal.
  pose proof (Z.div_mod frames (60 * 60 * fps) ltac:(lia)) as E1.
  set (h := frames `div` (60 * 60 * fps)) in *.
  set (r1 := frames `mod` (60 * 60 * fps)) in *.
  pose proof (Z.div_mod r1 (60 * fps) ltac:(lia)) as E2.
  set (m := r1 `div` (60 * fps)) in *.
  set (r2 := r1 `mod` (60 * fps)) in *.
  pose proof (Z.div_mod r2 fps ltac:(lia)) as E3.
  set (s := r2 `div` fps) in *.
  set (f := r2 `mod` fps) in *.
  clearbody h r1 m r2 s f. lia.
Qed.

(** X1.  For every frame count, negative ones included, and every frame
    rate other than zero, negative ones included, writing the count as a
    timecode and reading it back gives the count; at frame rate zero
    [frames_to_tc] raises [ZeroDivisionError]. *)
Theorem frames_roundtrip_any_sign frames fps :
  (fps ≠ 0 →
   (tc ← frames_to_tc frames fps; tc_to_frames tc fps) = Ok frames)
  ∧ (fps = 0 → frames_to_tc frames fps = Raise ZeroDivisionError).
Proof.
  split.
  - intros (tc & -> & Htc)%(frames_to_tc_reads_back frames). exact Htc.
  - intros ->. reflexivity.
Qed.

Lemma frames_roundtrip_any_sign_witness :
  (tc ← frames_to_tc (-48) 24; tc_to_frames tc 24) = Ok (-48)
  ∧ (tc ← frames_to_tc 100 (-25); tc_to_frames tc (-25)) = Ok 100
  ∧ frames_to_tc 7 0 = Raise ZeroDivisionError.
Proof.
  split_and!.
  - apply (frames_roundtrip_any_sign (-48) 24). lia.
  - apply (frames_roundtrip_any_sign 100 (-25)). lia.
  - apply (frames_roundtrip_any_sign 7 0). reflexivity.
Defined.

End codec_extra.

Section parse_tc_extra.

Lemma map_int_ok l ns :
  map_int l = Ok ns → Forall2 (λ c n, Py.int c = Ok n) l ns.
Proof.
  revert ns. induction l as [| c r IH]; intros ns; simpl.
  - intros [= <-]. constructor.
  - destruct (Py.int c) as [n |] eqn:Ec; simpl; [| discriminate].
    destruct (map_int r) as [ms |]; simpl; [| discriminate].
    intros [= <-]. constructor; auto.
Qed.

Lemma map_int_all_numeric l :
  (∀ c, c ∈ l → is_ok (Py.int c) = true) → ∃ ns, map_int l = Ok ns.
Proof.
  induction l as [| c r IH]; intros H; simpl; [eauto |].
  destruct (Py.int c) as [n |] eqn:Ec; simpl.
  - destruct IH as [ns ->]; [intros; apply H; set_solver |]. simpl. eauto.
  - specialize (H c ltac:(set_solver)). rewrite Ec in H. discriminate.
Qed.

Lemma map_int_raise l e :
  map_int l = Raise e →
  e = ValueError ∧ ∃ c, c ∈ l ∧ is_ok (Py.int c) = false.
Proof.
  induction l as [| c r IH]; simpl; [discriminate |].
  destruct (Py.int c) as [n |] eqn:Ec; simpl.
  - destruct (map_int r) as [ms |]; simpl; [discriminate |].
    intros [= <-]. destruct (IH eq_refl) as (He & c' & ? & ?).
    split; [done |]. exists c'. split; [by apply elem_of_cons; right | done].
  - intros [= <-]. split; [by eapply int_raise |].
    exists c. rewrite Ec. split; [by apply elem_of_cons; left | done].
Qed.

(** X2.  [parse_tc], the 24 fps reader, agrees with [tc_to_frames] at 24
    fps wherever that one returns, but is laxer and fails differently: it
    ignores components after the fourth as long as they are integers,
    raises [ValueError] exactly when some component is not an integer,
    and raises [IndexError] exactly when all components are integers and
    there are fewer than four. *)
Theorem parse_tc_behaviour tc :
  (∀ n, tc_to_frames tc 24 = Ok n → parse_tc tc = Ok n)
  ∧ (∀ c0 c1 c2 c3 rest h m s f,
       Py.split_on ":" tc = c0 :: c1 :: c2 :: c3 :: rest →
       Py.int c0 = Ok h → Py.int c1 = Ok m →
       Py.int c2 = Ok s → Py.int c3 = Ok f →
       (∀ c, c ∈ rest → is_ok (Py.int c) = true) →
       parse_tc tc = Ok (((h * 60 + m) * 60 + s) * 24 + f))
  ∧ (parse_tc tc = Raise ValueError
     ↔ ∃ c, c ∈ Py.split_on ":" tc ∧ is_ok (Py.int c) = false)
  ∧ (parse_tc tc = Raise IndexError
     ↔ (∀ c, c ∈ Py.split_on ":" tc → is_ok (Py.int c) = true)
       ∧ (length (Py.split_on ":" tc) < 4)%nat).
Proof.
  assert (∀ c0 c1 c2 c3 rest h m s f,
            Py.split_on ":" tc = c0 :: c1 :: c2 :: c3 :: rest →
            Py.int c0 = Ok h → Py.int c1 = Ok m →
            Py.int c2 = Ok s → Py.int c3 = Ok f →
            (∀ c, c ∈ rest → is_ok (Py.int c) = true) →
            parse_tc tc = Ok (((h * 60 + m) * 60 + s) * 24 + f)) as Hfour.
  { intros c0 c1 c2 c3 rest h m s f Hs E0 E1 E2 E3 Hrest.
    unfold parse_tc. rewrite Hs. simpl. rewrite E0, E1, E2, E3. simpl.
    by destruct (map_int_all_numeric rest Hrest) as [ns ->]. }
  split_and!.
  - intros n (c0 & c1 & c2 & c3 & h & m & s & f & Hs & E0 & E1 & E2 & E3 & ->)
           %tc_to_frames_ok_inv.
    apply (Hfour c0 c1 c2 c3 [] h m s f); try done.
    intros c Hc. by apply elem_of_nil in Hc.
  - exact Hfour.
  - unfold parse_tc. split.
    + destruct (map_int (Py.split_on ":" tc)) as [ns | e] eqn:E; simpl.
      * destruct ns as [| ? [| ? [| ? [| ? ?]]]]; discriminate.
      * intros _. by apply map_int_raise in E as [_ ?].
    + intros (c & Hc & Hbad).
      destruct (map_int (Py.split_on ":" tc)) as [ns | e] eqn:E; simpl.
      * exfalso. apply map_int_ok in E.
        apply list_elem_of_lookup in Hc as [i Hi].
        destruct (Forall2_lookup_l _ _ _ _ _ E Hi) as (n & _ & Hn).
        rewrite Hn in Hbad. discriminate.
      * by apply map_int_raise in E as [-> _].
  - unfold parse_tc. split.
    + destruct (map_int (Py.split_on ":" tc)) as [ns | e] eqn:E; simpl.
      * intros H. apply map_int_ok in E. split.
        -- intros c (i & Hi)%list_elem_of_lookup.
           destruct (Forall2_lookup_l _ _ _ _ _ E Hi) as (n & _ & ->). done.
        -- rewrite (Forall2_length _ _ _ E).
           destruct ns as [| ? [| ? [| ? [| ? ?]]]]; simpl;
             try lia; discriminate.
      * intros [= ->]. by apply map_int_raise in E as [? _].
    + intros [Hall Hlen].
      destruct (map_int_all_numeric _ Hall) as [ns E]. rewrite E. simpl.
      apply map_int_ok, Forall2_length in E. rewrite E in Hlen.
      destruct ns as [| ? [| ? [| ? [| ? ?]]]]; simpl in Hlen;
        try reflexivity; lia.
Qed.

Lemma parse_tc_behaviour_witness :
  parse_tc "01:00:02:00" = Ok 86448
  ∧ parse_tc "1:2:3:4:5" = Ok 89356
  ∧ parse_tc "1:2:x:4" = Raise ValueError
  ∧ parse_tc "1:2:3" = Raise IndexError.
Proof.
  split_and!.
  - apply (parse_tc_behaviour "01:00:02:00"). reflexivity.
  - apply (proj1 (proj2 (parse_tc_behaviour "1:2:3:4:5"))
             "1" "2" "3" "4" ["5"] 1 2 3 4); try reflexivity.
    intros c ->%list_elem_of_singleton. reflexivity.
  - apply (parse_tc_behaviour "1:2:x:4"). exists "x".
    split; [| reflexivity].
    change ("x" ∈ ["1"; "2"; "x"; "4"]). repeat constructor.
  - apply (parse_tc_behaviour "1:2:3"). split; [| simpl; lia].
    change (∀ c, c ∈ ["1"; "2"; "3"] → is_ok (Py.int c) = true).
    intros c Hc.
    repeat (apply elem_of_cons in Hc as [-> | Hc]; [reflexivity |]).
    by apply elem_of_nil in Hc.
Defined.

End parse_tc_extra.

Section valid_range.

Lemma two_digits_of_fmt02d v : 0 ≤ v < 100 → two_digits (Py.fmt02d v) = Some v.
Proof.
  intros Hv.
  assert (forallb (λ k : nat,
            bool_decide (two_digits (Py.fmt02d (Z.of_nat k))
                         = Some (Z.of_nat k)))
            (seq 0 100) = true) as Hall by (vm_compute; reflexivity).
  rewrite forallb_forall in Hall.
  specialize (Hall (Z.to_nat v)). rewrite Z2Nat.id in Hall by lia.
  eapply bool_decide_eq_true, Hall, in_seq. lia.
Qed.

Lemma valid_timecode_of_fields h m s f fps :
  0 ≤ h < 100 → 0 ≤ m < 60 → 0 ≤ s < 60 → 0 ≤ f < fps → f < 100 →
  valid_timecode (tc_of h m s f) fps = true.
Proof.
  intros Hh Hm Hs Hf Hf'. unfold valid_timecode, tc_of.
  change ":" with (String ":"%char "").
  rewrite split_on_four by apply lacks_colon_fmt02d.
  rewrite !two_digits_of_fmt02d by lia.
  apply andb_true_iff. split; [apply andb_true_iff; split |];
    apply Z.ltb_lt; lia.
Qed.

(** The fields of a valid timecode, with the bound on the hours. *)
Lemma valid_timecode_fields tc fps :
  valid_timecode tc fps = true →
  ∃ h m s f, tc = tc_of h m s f
             ∧ 0 ≤ h < 100 ∧ 0 ≤ m < 60 ∧ 0 ≤ s < 60 ∧ 0 ≤ f < fps ∧ f < 100.
Proof.
  unfold valid_timecode. intros H.
  pose proof (join_split_on ":" tc) as Hj.
  destruct (Py.split_on ":" tc) as [| hh [| mm [| ss [| ff [| ? ?]]]]];
    try discriminate.
  destruct (two_digits hh) as [h |] eqn:Eh; [| discriminate].
  destruct (two_digits mm) as [m |] eqn:Em; [| discriminate].
  destruct (two_digits ss) as [s |] eqn:Es; [| discriminate].
  destruct (two_digits ff) as [f |] eqn:Ef; [| discriminate].
  apply two_digits_fmt02d in Eh as [-> ?], Em as [-> ?],
    Es as [-> ?], Ef as [-> ?].
  apply andb_true_iff in H as [[Hm60 Hs60]%andb_true_iff Hffps].
  exists h, m, s, f. split; [by rewrite <- Hj | lia].
Qed.

Lemma frames_to_tc_in_range n fps :
  1 ≤ fps ≤ 100 → 0 ≤ n < 100 * 60 * 60 * fps →
  ∃ tc, frames_to_tc n fps = Ok tc
        ∧ valid_timecode tc fps = true ∧ tc_to_frames tc fps = Ok n.
Proof.
  intros Hfps Hn.
  destruct (frames_to_tc_reads_back n fps) as (tc & Htc & Hback); [lia |].
  exists tc. split_and!; [done | | done].
  rewrite frames_to_tc_nonzero in Htc by lia. injection Htc as <-.
  pose proof (Z.div_mod n (60 * 60 * fps) ltac:(lia)) as E1.
  pose proof (Z.mod_pos_bound n (60 * 60 * fps) ltac:(lia)) as B1.
  set (h := n `div` (60 * 60 * fps)) in *.
  set (r1 := n `mod` (60 * 60 * fps)) in *.
  pose proof (Z.div_mod r1 (60 * fps) ltac:(lia)) as E2.
  pose proof (Z.mod_pos_bound r1 (60 * fps) ltac:(lia)) as B2.
  set (m := r1 `div` (60 * fps)) in *.
  set (r2 := r1 `mod` (60 * fps)) in *.
  pose proof (Z.div_mod r2 fps ltac:(lia)) as E3.
  pose proof (Z.mod_pos_bound r2 fps ltac:(lia)) as B3.
  set (s := r2 `div` fps) in *.
  set (f := r2 `mod` fps) in *.
  clearbody h r1 m r2 s f.
  apply valid_timecode_of_fields; nia.
Qed.

(** X3.  At a frame rate from 1 to 100, [frames_to_tc] writes a valid
    [HH:MM:SS:FF] timecode exactly for the frame counts from 0 up to,
    but not including, 100 hours; the timecode then reads back as the
    count. *)
Theorem frames_to_tc_valid_range n fps :
  1 ≤ fps ≤ 100 →
  ∃ tc, frames_to_tc n fps = Ok tc
        ∧ tc_to_frames tc fps = Ok n
        ∧ (valid_timecode tc fps = true ↔ 0 ≤ n < 100 * 60 * 60 * fps).
Proof.
  intros Hfps.
  destruct (frames_to_tc_reads_back n fps) as (tc & Htc & Hback); [lia |].
  exists tc. split_and!; [done | done |]. split.
  - intros (h & m & s & f & -> & Hh & Hm & Hs & Hf & _)%valid_timecode_fields.
    rewrite tc_to_frames_tc_of_any in Hback. injection Hback as <-. nia.
  - intros Hn.
    destruct (frames_to_tc_in_range n fps Hfps Hn) as (tc' & Htc' & Hv & _).
    congruence.
Qed.

Lemma frames_to_tc_valid_range_witness :
  ∃ tc, frames_to_tc 8639999 24 = Ok tc
        ∧ tc_to_frames tc 24 = Ok 8639999
        ∧ (valid_timecode tc 24 = true ↔ 0 ≤ 8639999 < 100 * 60 * 60 * 24).
Proof. apply frames_to_tc_valid_range. lia. Defined.

(** X4.  Where both timecodes can be read and the frame rate is not
    zero, [subtract_tc] returns a timecode that reads as the difference of
    the two frame counts (a negative difference included); a timecode that
    cannot be read makes it raise [ValueError], whatever the frame
    rate. *)
Theorem subtract_tc_difference out_tc in_tc fps :
  (∀ a b, tc_to_frames out_tc fps = Ok a → tc_to_frames in_tc fps = Ok b →
          fps ≠ 0 →
          ∃ tc, subtract_tc out_tc in_tc fps = Ok tc
                ∧ tc_to_frames tc fps = Ok (a - b))
  ∧ (malformed_timecode out_tc ∨ malformed_timecode in_tc →
     subtract_tc out_tc in_tc fps = Raise ValueError).
Proof.
  split.
  - intros a b Ha Hb Hfps. unfold subtract_tc. rewrite Ha, Hb. simpl.
    by apply frames_to_tc_reads_back.
  - unfold subtract_tc. intros [Hbad | Hbad].
    + apply (malformed_iff_raise _ fps) in Hbad. by rewrite Hbad.
    + apply (malformed_iff_raise _ fps) in Hbad.
      destruct (tc_to_frames out_tc fps) as [a | e] eqn:E; simpl.
      * by rewrite Hbad.
      * by apply tc_to_frames_raise in E as ->.
Qed.

Lemma subtract_tc_difference_witness :
  (∃ tc, subtract_tc "01:00:10:00" "01:00:02:12" 24 = Ok tc
         ∧ tc_to_frames tc 24 = Ok (86640 - 86460))
  ∧ subtract_tc "01:00:10:00" "01:00:02" 24 = Raise ValueError.
Proof.
  split.
  - apply (subtract_tc_difference "01:00:10:00" "01:00:02:12" 24);
      [reflexivity | reflexivity | lia].
  - apply (subtract_tc_difference "01:00:10:00" "01:00:02" 24).
    right. left. simpl. lia.
Defined.

(** X5.  For an edit whose source in and source out are valid timecodes
    at 24 fps with the source in not after the source out,
    [Edit.duration_tc] returns a valid timecode at 24 fps that reads as
    the number of frames between them. *)
Theorem duration_tc_valid e a b :
  valid_timecode (source_in e) 24 = true →
  valid_timecode (source_out e) 24 = true →
  tc_to_frames (source_in e) 24 = Ok a →
  tc_to_frames (source_out e) 24 = Ok b →
  a ≤ b →
  ∃ tc, duration_tc e = Ok tc
        ∧ valid_timecode tc 24 = true ∧ tc_to_frames tc 24 = Ok (b - a).
Proof.
  intros (h1 & m1 & s1 & f1 & E1 & ? & ? & ? & ? & _)%valid_timecode_fields
         (h2 & m2 & s2 & f2 & E2 & ? & ? & ? & ? & _)%valid_timecode_fields
         Ha Hb Hab.
  rewrite E1, tc_to_frames_tc_of_any in Ha. injection Ha as <-.
  rewrite E2, tc_to_frames_tc_of_any in Hb. injection Hb as <-.
  unfold duration_tc, subtract_tc.
  rewrite E1, E2, !tc_to_frames_tc_of_any. simpl.
  apply frames_to_tc_in_range; lia.
Qed.

Lemma duration_tc_valid_witness :
  ∃ tc, duration_tc sample_new = Ok tc
        ∧ valid_timecode tc 24 = true
        ∧ tc_to_frames tc 24 = Ok (86640 - 86448).
Proof.
  apply (duration_tc_valid sample_new 86448 86640); try reflexivity. lia.
Defined.

End valid_range.

(** ** Comparator: position by position *)

Section comparator_extra.

Implicit Types (old_edits new_edits : list Edit) (fps : Z).

Lemma for_each_app {S I : Type} (body : S → I → result S) l1 l2 st :
  for_each body (l1 ++ l2) st
  = (st' ← for_each body l1 st; for_each body l2 st').
Proof.
  revert st. induction l1 as [| i rest IH]; intros st; [done |].
  simpl. destruct (body st i) as [st' |]; simpl; [apply IH | done].
Qed.

Lemma for_each_compare_acc old_edits new_edits fps idxs : ∀ acc,
  for_each (compare_iter old_edits new_edits fps) idxs acc
  = (recs ← for_each (compare_iter old_edits new_edits fps) idxs [];
     Ok (acc ++ recs)).
Proof.
  induction idxs as [| i rest IH]; intros acc; simpl.
  - by rewrite app_nil_r.
  - rewrite (compare_iter_acc _ _ _ acc).
    destruct (compare_iter old_edits new_edits fps [] i) as [rs |]; simpl;
      [| done].
    rewrite (IH (acc ++ rs)), (IH rs).
    destruct (for_each (compare_iter old_edits new_edits fps) rest [])
      as [recs |]; simpl; [| done].
    by rewrite app_assoc.
Qed.

(** Two loops that compute the same record at corresponding indices give
    the same result. *)
Lemma for_each_compare_ext old1 new1 old2 new2 fps k : ∀ a1 a2 acc,
  (∀ j, (j < k)%nat →
        compare_iter old1 new1 fps [] (a1 + j)
        = compare_iter old2 new2 fps [] (a2 + j)) →
  for_each (compare_iter old1 new1 fps) (seq a1 k) acc
  = for_each (compare_iter old2 new2 fps) (seq a2 k) acc.
Proof.
  induction k as [| k IH]; intros a1 a2 acc H; [done |]. simpl.
  rewrite (compare_iter_acc old1), (compare_iter_acc old2).
  pose proof (H 0%nat ltac:(lia)) as H0. rewrite !Nat.add_0_r in H0.
  rewrite H0.
  destruct (compare_iter old2 new2 fps [] a2) as [rs |]; simpl; [| done].
  apply IH. intros j Hj. specialize (H (S j) ltac:(lia)).
  by replace (a1 + S j)%nat with (S a1 + j)%nat in H by lia;
     replace (a2 + S j)%nat with (S a2 + j)%nat in H by lia.
Qed.

(** A list that holds, at each index, the record computed for that index
    is the result of the comparison. *)
Lemma compare_edls_of_records old_edits new_edits fps recs :
  length recs = (length old_edits `max` length new_edits)%nat →
  (∀ i r, recs !! i = Some r →
          compare_iter old_edits new_edits fps [] i = Ok [r]) →
  compare_edls old_edits new_edits fps = Ok recs.
Proof.
  intros Hlen Hrecs.
  destruct (for_each_compare_total old_edits new_edits fps
              (length old_edits `max` length new_edits) 0 [])
    as [changes E].
  { intros j Hj. destruct (lookup_lt_is_Some_2 recs j) as [r Hr]; [lia |].
    exists r. by apply Hrecs. }
  unfold compare_edls. rewrite E. f_equal.
  destruct (compare_edls_ok_inv _ _ _ _ E) as [Hlen' Hrec'].
  apply list_eq. intros i.
  destruct (changes !! i) as [r |] eqn:Ei.
  - destruct (lookup_lt_is_Some_2 recs i) as [r' Hr'].
    { apply lookup_lt_Some in Ei. lia. }
    rewrite Hr'. apply Hrec' in Ei. apply Hrecs in Hr'. congruence.
  - symmetry. apply lookup_ge_None. apply lookup_ge_None in Ei. lia.
Qed.

Lemma compare_edls_same_list edits fps :
  compare_edls edits edits fps = Ok (unchanged_record <$> edits).
Proof.
  apply compare_edls_of_records.
  - rewrite length_fmap. lia.
  - intros i r. rewrite list_lookup_fmap.
    destruct (edits !! i) as [e |] eqn:Ee; [| discriminate].
    intros [= <-]. unfold compare_iter. rewrite Ee.
    by rewrite !String.eqb_refl.
Qed.

Lemma output_unchanged_records edits fps :
  output_change_list (unchanged_record <$> edits) fps = ([], None).
Proof.
  apply write_changes_all_skipped, Forall_forall.
  by intros c (e & -> & _)%list_elem_of_fmap.
Qed.

(** X6.  Comparing a list of edits with itself returns one UNCHANGED
    record per edit and never raises, whatever the timecodes hold, and
    the renderer then writes nothing. *)
Theorem compare_edls_self edits fps :
  compare_edls edits edits fps = Ok (unchanged_record <$> edits)
  ∧ output_change_list (unchanged_record <$> edits) fps = ([], None).
Proof.
  split; [apply compare_edls_same_list | apply output_unchanged_records].
Qed.

Lemma compare_edls_concat old1 new1 old2 new2 fps :
  length old1 = length new1 →
  compare_edls (old1 ++ old2) (new1 ++ new2) fps
  = (c1 ← compare_edls old1 new1 fps;
     c2 ← compare_edls old2 new2 fps;
     Ok (c1 ++ c2)).
Proof.
  intros Hlen. unfold compare_edls. rewrite !length_app, <- Hlen.
  replace (length old1 `max` length old1)%nat with (length old1) by lia.
  replace ((length old1 + length old2) `max` (length old1 + length new2))%nat
    with (length old1 + (length old2 `max` length new2))%nat by lia.
  rewrite seq_app, for_each_app. simpl.
  rewrite (for_each_compare_ext (old1 ++ old2) (new1 ++ new2) old1 new1
             fps (length old1) 0 0 []).
  2:{ intros j Hj. unfold compare_iter. simpl.
      by rewrite !lookup_app_l by lia. }
  destruct (for_each (compare_iter old1 new1 fps) (seq 0 (length old1)) [])
    as [c1 |]; simpl; [| done].
  rewrite for_each_compare_acc.
  rewrite (for_each_compare_ext (old1 ++ old2) (new1 ++ new2) old2 new2
             fps (length old2 `max` length new2) (length old1) 0 []);
    [done |].
  intros j Hj. unfold compare_iter. simpl.
  rewrite !lookup_app_r by lia.
  by replace (length old1 + j - length old1)%nat with j by lia;
     replace (length old1 + j - length new1)%nat with j by lia.
Qed.

(** X7.  The comparison is positional: for lists cut at the same
    position, comparing the concatenations is comparing the first parts,
    then the second parts, and appending the records. *)
Theorem compare_edls_app old1 new1 old2 new2 fps :
  length old1 = length new1 →
  compare_edls (old1 ++ old2) (new1 ++ new2) fps
  = (c1 ← compare_edls old1 new1 fps;
     c2 ← compare_edls old2 new2 fps;
     Ok (c1 ++ c2)).
Proof. apply compare_edls_concat. Qed.

Lemma compare_edls_app_witness :
  compare_edls ([sample_new] ++ [sample_old]) ([sample_new] ++ [sample_new]) 24
  = (c1 ← compare_edls [sample_new] [sample_new] 24;
     c2 ← compare_edls [sample_old] [sample_new] 24;
     Ok (c1 ++ c2)).
Proof. apply compare_edls_app. reflexivity. Defined.

Lemma compute_trim_details_raise_inv o n fps e :
  compute_trim_details o n fps = Raise e →
  ∃ tc, tc ∈ timecodes_read o n ∧ tc_to_frames tc fps = Raise ValueError.
Proof.
  intros E.
  destruct (timecodes_parse fps o) eqn:Po;
    [destruct (timecodes_parse fps n) eqn:Pn |].
  - destruct (compute_trim_details_ok fps o n Po Pn) as [d Hd]. congruence.
  - unfold timecodes_parse in Pn. unfold timecodes_read.
    destruct (tc_to_frames (source_in n) fps) eqn:E1;
      [| exists (source_in n); split;
         [set_solver | by rewrite E1, (tc_to_frames_raise _ _ _ E1)]].
    destruct (tc_to_frames (source_out n) fps) eqn:E2;
      [| exists (source_out n); split;
         [set_solver | by rewrite E2, (tc_to_frames_raise _ _ _ E2)]].
    destruct (tc_to_frames (record_in n) fps) eqn:E3;
      [| exists (record_in n); split;
         [set_solver | by rewrite E3, (tc_to_frames_raise _ _ _ E3)]].
    destruct (tc_to_frames (record_out n) fps) eqn:E4;
      [| exists (record_out n); split;
         [set_solver | by rewrite E4, (tc_to_frames_raise _ _ _ E4)]].
    discriminate Pn.
  - unfold timecodes_parse in Po. unfold timecodes_read.
    destruct (tc_to_frames (source_in o) fps) eqn:E1;
      [| exists (source_in o); split;
         [set_solver | by rewrite E1, (tc_to_frames_raise _ _ _ E1)]].
    destruct (tc_to_frames (source_out o) fps) eqn:E2;
      [| exists (source_out o); split;
         [set_solver | by rewrite E2, (tc_to_frames_raise _ _ _ E2)]].
    destruct (tc_to_frames (record_in o) fps) eqn:E3;
      [| exists (record_in o); split;
         [set_solver | by rewrite E3, (tc_to_frames_raise _ _ _ E3)]].
    destruct (tc_to_frames (record_out o) fps) eqn:E4;
      [| exists (record_out o); split;
         [set_solver | by rewrite E4, (tc_to_frames_raise _ _ _ E4)]].
    discriminate Po.
Qed.

(** X8.  [compare_edls] raises only [ValueError], and it raises exactly
    when some position holds two edits with the same reel and differing
    sources one of whose eight timecodes is malformed; timecodes at other
    positions are never read. *)
Theorem compare_edls_raises_iff old_edits new_edits fps :
  (∀ e, compare_edls old_edits new_edits fps = Raise e → e = ValueError)
  ∧ (compare_edls old_edits new_edits fps = Raise ValueError
     ↔ ∃ i o n tc,
         old_edits !! i = Some o ∧ new_edits !! i = Some n
         ∧ reads_timecodes o n
         ∧ tc ∈ timecodes_read o n ∧ malformed_timecode tc).
Proof.
  split; [apply compare_edls_raise |]. split.
  - unfold compare_edls. intros (j & Hj & Hr)%for_each_compare_raise.
    simpl in Hr. revert Hr. unfold compare_iter.
    destruct (old_edits !! j) as [o |] eqn:Eo,
             (new_edits !! j) as [n |] eqn:En; simpl; try discriminate.
    destruct (String.eqb_spec (reel o) (reel n)) as [Hreel |];
      [simpl | discriminate].
    destruct ((source_in o =? source_in n)%string
              && (source_out o =? source_out n)%string) eqn:Hsrc;
      [discriminate |].
    destruct (compute_trim_details o n fps) eqn:E; simpl; [discriminate |].
    intros _. apply compute_trim_details_raise_inv in E as (tc & Htc & Hbad).
    exists j, o, n, tc. split_and!; try done.
    + split; [done |]. intros [H1 H2].
      apply String.eqb_eq in H1, H2. rewrite H1, H2 in Hsrc. discriminate.
    + by apply (malformed_iff_raise tc fps).
  - intros (i & o & n & tc & Ho & Hn & [Hreel Hsrc] & Htc & Hbad).
    by eapply compare_edls_malformed.
Qed.

Lemma compare_edls_raises_iff_witness :
  compare_edls [sample_bad_old] [sample_bad_new] 24 = Raise ValueError
  ∧ compare_edls [sample_bad_old] [sample_bad_old] 24
    = Ok [unchanged_record sample_bad_old].
Proof.
  split.
  - apply compare_edls_raises_iff.
    exists 0%nat, sample_bad_old, sample_bad_new, "01:00:0x:00".
    split_and!; [reflexivity | reflexivity | | | ].
    + split; [reflexivity |]. intros [? _]. discriminate.
    + change ("01:00:0x:00"
              ∈ "01:00:0x:00"
                :: tail (timecodes_read sample_bad_old sample_bad_new)).
      constructor.
    + right. exists "0x". split; [| reflexivity].
      change ("0x" ∈ ["01"; "00"; "0x"; "00"]). repeat constructor.
  - reflexivity.
Defined.

(** X9.  A position is UNCHANGED exactly when both edits are present and
    have the same key (reel, source in, source out); record timecodes,
    event numbers and clip names play no part. *)
Theorem unchanged_iff_same_key old_edits new_edits fps changes i r :
  compare_edls old_edits new_edits fps = Ok changes →
  changes !! i = Some r →
  (c_type r = UNCHANGED
   ↔ ∃ o n, old_edits !! i = Some o ∧ new_edits !! i = Some n
            ∧ key o = key n).
Proof.
  intros [_ Hrec]%compare_edls_ok_inv Hr. apply Hrec in Hr.
  destruct (old_edits !! i) as [o |] eqn:Eo,
           (new_edits !! i) as [n |] eqn:En.
  - destruct (compare_iter_both _ _ _ _ _ _ _ Eo En Hr) as (_ & _ & Hcase).
    unfold key. split.
    + intros Hty. exists o, n. split_and!; [done | done |].
      destruct (decide (reel o = reel n)) as [-> |];
        [| destruct Hcase; congruence].
      destruct (decide (source_in o = source_in n
                        ∧ source_out o = source_out n)) as [[-> ->] |];
        [done | destruct Hcase; congruence].
    + intros (o' & n' & [= <-] & [= <-] & [= Hr1 Hr2 Hr3]).
      rewrite decide_True, decide_True in Hcase by done. by destruct Hcase.
  - revert Hr. unfold compare_iter. rewrite Eo, En. intros [= <-]. simpl.
    split; [discriminate | by intros (? & ? & _ & ? & _)].
  - revert Hr. unfold compare_iter. rewrite Eo, En. intros [= <-]. simpl.
    split; [discriminate | by intros (? & ? & ? & _)].
  - revert Hr. unfold compare_iter. rewrite Eo, En. discriminate.
Qed.

Lemma unchanged_iff_same_key_witness :
  let o := mkEdit "001" "AX" "01:00:00:00" "01:00:10:00" "01:00:00:00"
             "01:00:10:00" "a.mov" in
  let n := mkEdit "007" "AX" "01:00:00:00" "01:00:10:00" "05:00:00:00"
             "05:00:10:00" "b.mov" in
  c_type (mkChange UNCHANGED (Some o) (Some n) ∅) = UNCHANGED
  ↔ ∃ o' n', [o] !! 0%nat = Some o' ∧ [n] !! 0%nat = Some n'
             ∧ key o' = key n'.
Proof.
  intros o n.
  apply (unchanged_iff_same_key [o] [n] 24
           [mkChange UNCHANGED (Some o) (Some n) ∅] 0);
    reflexivity.
Defined.

End comparator_extra.

(** ** Trim details and the renderer on the comparator's records *)

Section pipeline_extra.

Implicit Types (old_edits new_edits : list Edit) (fps : Z).

Lemma timecodes_parse_intro fps e a b c d :
  tc_to_frames (source_in e) fps = Ok a →
  tc_to_frames (source_out e) fps = Ok b →
  tc_to_frames (record_in e) fps = Ok c →
  tc_to_frames (record_out e) fps = Ok d →
  timecodes_parse fps e = true.
Proof.
  intros Ha Hb Hc Hd. unfold timecodes_parse. by rewrite Ha, Hb, Hc, Hd.
Qed.

Lemma head_action_swap a b :
  VStr <$> head_action (a - b)
  = opposite_action <$> (VStr <$> head_action (b - a)).
Proof.
  unfold head_action.
  destruct (Z.ltb_spec (a - b) 0), (Z.gtb_spec (a - b) 0),
           (Z.ltb_spec (b - a) 0), (Z.gtb_spec (b - a) 0);
    try lia; reflexivity.
Qed.

Lemma tail_action_swap a b :
  VStr <$> tail_action (a - b)
  = opposite_action <$> (VStr <$> tail_action (b - a)).
Proof.
  unfold tail_action.
  destruct (Z.ltb_spec (a - b) 0), (Z.gtb_spec (a - b) 0),
           (Z.ltb_spec (b - a) 0), (Z.gtb_spec (b - a) 0);
    try lia; reflexivity.
Qed.

(** X10.  Swapping the old and the new edit reverses the trim details:
    the time difference changes sign, the old and new lengths trade
    places, and a head or tail that was extended is reported trimmed and
    the other way round. *)
Theorem trim_details_swap o n fps d :
  compute_trim_details o n fps = Ok d →
  ∃ d', compute_trim_details n o fps = Ok d'
    ∧ (∀ t, d !! "time_diff_frames" = Some (VInt t) →
            d' !! "time_diff_frames" = Some (VInt (- t)))
    ∧ d' !! "old_length_frames" = d !! "new_length_frames"
    ∧ d' !! "new_length_frames" = d !! "old_length_frames"
    ∧ d' !! "head_change" = opposite_action <$> d !! "head_change"
    ∧ d' !! "tail_change" = opposite_action <$> d !! "tail_change".
Proof.
  intros (osi & oso & nsi & nso & ori & oro & nri & nro
          & Eosi & Eoso & Ensi & Enso & Eori & Eoro & Enri & Enro
          & Htd & Hol & Hnl & Hhc & _ & _ & Htc & _ & _)
         %compute_trim_details_lookup.
  destruct (compute_trim_details_ok fps n o) as [d' Hd'];
    [by eapply timecodes_parse_intro .. |].
  exists d'. split; [done |].
  apply compute_trim_details_lookup in Hd'
    as (? & ? & ? & ? & ? & ? & ? & ?
        & E1 & E2 & E3 & E4 & E5 & E6 & E7 & E8
        & Htd' & Hol' & Hnl' & Hhc' & _ & _ & Htc' & _ & _).
  rewrite Ensi in E1. rewrite Enso in E2. rewrite Eosi in E3.
  rewrite Eoso in E4. rewrite Enri in E5. rewrite Enro in E6.
  rewrite Eori in E7. rewrite Eoro in E8.
  injection E1 as <-. injection E2 as <-. injection E3 as <-.
  injection E4 as <-. injection E5 as <-. injection E6 as <-.
  injection E7 as <-. injection E8 as <-.
  split_and!.
  - intros t Ht. rewrite Htd in Ht. injection Ht as <-.
    rewrite Htd'. do 2 f_equal. lia.
  - by rewrite Hol', Hnl.
  - by rewrite Hnl', Hol.
  - rewrite Hhc', Hhc. apply head_action_swap.
  - rewrite Htc', Htc. apply tail_action_swap.
Qed.

Lemma trim_details_swap_witness :
  ∃ d d',
    compute_trim_details sample_old sample_new 24 = Ok d
    ∧ compute_trim_details sample_new sample_old 24 = Ok d'
    ∧ d' !! "head_change" = opposite_action <$> d !! "head_change".
Proof.
  destruct (compute_trim_details_ok 24 sample_old sample_new) as [d Hd];
    [reflexivity | reflexivity |].
  destruct (trim_details_swap sample_old sample_new 24 d Hd)
    as (d' & Hd' & _ & _ & _ & Hhead & _).
  exists d, d'. split_and!; assumption.
Defined.

Lemma frames_to_description_ok frames fps :
  fps ≠ 0 → ∃ text, frames_to_description frames fps = Ok text.
Proof.
  intros Hfps. unfold frames_to_description.
  rewrite floordiv_nonzero, pymod_nonzero by done. simpl.
  case_decide; eauto.
Qed.

(** The description of a detail mapping made by [compute_trim_details]
    can always be built at a frame rate other than zero. *)
Lemma desc_parts_of_trim_details o n fps d :
  compute_trim_details o n fps = Ok d → fps ≠ 0 →
  ∃ parts, desc_parts d fps = Ok parts.
Proof.
  intros (osi & oso & nsi & nso & ori & oro & nri & nro
          & _ & _ & _ & _ & _ & _ & _ & _
          & Htd & Hol & Hnl & Hhc & Hhf & Hht & Htc & Htf & Htt)
         %compute_trim_details_lookup Hfps.
  unfold desc_parts, trim_clause, getitem.
  rewrite Htd, Hol, Hnl, Hhc, Hhf, Hht, Htc, Htf, Htt.
  destruct (frames_to_description_ok (oro - ori) fps Hfps) as [t1 Ht1].
  destruct (frames_to_description_ok (nro - nri) fps Hfps) as [t2 Ht2].
  destruct (head_action (nsi - osi)), (tail_action (nso - oso)); simpl;
    destruct (bool_decide (nro - nri - (oro - ori) = 0)); simpl;
    rewrite ?Ht1; simpl; rewrite ?Ht2; simpl; eauto.
Qed.

(** Every record the comparator makes can be rendered. *)
Lemma render_compared_record old_edits new_edits fps i r :
  fps ≠ 0 →
  compare_iter old_edits new_edits fps [] i = Ok [r] →
  ∃ line, render_change r fps = Ok line.
Proof.
  intros Hfps. unfold compare_iter.
  destruct (old_edits !! i) as [o |], (new_edits !! i) as [n |]; simpl;
    try (intros [= <-]; unfold render_change; simpl; eauto; fail);
    try discriminate.
  destruct (negb (reel o =? reel n)%string);
    [intros [= <-]; unfold render_change; simpl; eauto |].
  destruct ((source_in o =? source_in n)%string
            && (source_out o =? source_out n)%string);
    [intros [= <-]; unfold render_change; simpl; eauto |].
  destruct (compute_trim_details o n fps) as [d |] eqn:Ed; simpl;
    [| discriminate].
  intros [= <-]. unfold render_change. simpl.
  destruct (desc_parts_of_trim_details o n fps d Ed Hfps) as [parts ->].
  simpl. eauto.
Qed.

Lemma render_change_reportable c fps line :
  reportable c = true → render_change c fps = Ok line → is_Some line.
Proof.
  unfold reportable, render_change.
  destruct (c_type c); try discriminate; intros _.
  - destruct (display_edit c); simpl; [| discriminate].
    destruct (desc_parts (c_details c) fps); simpl; [| discriminate].
    intros [= <-]. eauto.
  - destruct (display_edit c); simpl; [| discriminate].
    intros [= <-]. eauto.
Qed.

Lemma write_changes_no_error changes fps : ∀ written,
  Forall (λ c, ∃ line, render_change c fps = Ok line) changes →
  ∃ lines,
    write_changes changes fps written = (written ++ lines, None)
    ∧ length lines = length (List.filter reportable changes).
Proof.
  induction changes as [| c rest IH]; intros written Hall.
  - exists []. by rewrite app_nil_r.
  - apply Forall_cons in Hall as [[line Hc] Hrest]. simpl. rewrite Hc.
    destruct (reportable c) eqn:Hrep.
    + destruct (render_change_reportable c fps line Hrep Hc) as [l ->].
      destruct (IH (written ++ [l]) Hrest) as (lines & -> & Hlen).
      exists (l :: lines). rewrite <- app_assoc. simpl. by rewrite Hlen.
    + rewrite (render_change_skipped c fps Hrep) in Hc. injection Hc as <-.
      apply IH, Hrest.
Qed.

Lemma output_of_compared old_edits new_edits fps changes :
  compare_edls old_edits new_edits fps = Ok changes → fps ≠ 0 →
  ∃ lines,
    output_change_list changes fps = (lines, None)
    ∧ length lines = length (List.filter reportable changes).
Proof.
  intros [_ Hrec]%compare_edls_ok_inv Hfps.
  destruct (write_changes_no_error changes fps []) as (lines & E & Hlen);
    [| by exists lines].
  apply Forall_forall. intros c (i & Hi)%list_elem_of_lookup.
  eapply render_compared_record; [done | by apply Hrec].
Qed.

(** X11.  At a frame rate other than zero the renderer never raises on
    the records [compare_edls] returns: it writes one line for each NEW
    and each CHANGED record and ends without an exception. *)
Theorem render_compared_never_raises old_edits new_edits fps changes :
  compare_edls old_edits new_edits fps = Ok changes → fps ≠ 0 →
  ∃ lines,
    output_change_list changes fps = (lines, None)
    ∧ length lines = length (List.filter reportable changes).
Proof. apply output_of_compared. Qed.

Lemma render_compared_never_raises_witness :
  ∃ changes lines,
    compare_edls [sample_old; sample_old] [sample_new] 24 = Ok changes
    ∧ output_change_list changes 24 = (lines, None)
    ∧ length lines = length (List.filter reportable changes).
Proof.
  destruct (compare_edls_returns [sample_old; sample_old] [sample_new] 24)
    as [changes E]; [reflexivity | reflexivity |].
  destruct (render_compared_never_raises _ _ 24 changes E) as (lines & H);
    [lia |].
  exists changes, lines. split; [exact E | exact H].
Defined.

Lemma compare_edls_nil_new extra fps :
  compare_edls [] extra fps = Ok (added_record <$> extra).
Proof.
  apply compare_edls_of_records.
  - by rewrite length_fmap.
  - intros i r. rewrite list_lookup_fmap.
    destruct (extra !! i) as [e |] eqn:Ee; [| discriminate].
    intros [= <-]. unfold compare_iter. by rewrite Ee.
Qed.

Lemma compare_edls_old_nil extra fps :
  compare_edls extra [] fps = Ok (deleted_record <$> extra).
Proof.
  apply compare_edls_of_records.
  - rewrite length_fmap. simpl. lia.
  - intros i r. rewrite list_lookup_fmap.
    destruct (extra !! i) as [e |] eqn:Ee; [| discriminate].
    intros [= <-]. unfold compare_iter. by rewrite Ee.
Qed.

Lemma output_added_records extra fps : ∀ written,
  write_changes (added_record <$> extra) fps written
  = (written ++ (new_line <$> extra), None).
Proof.
  induction extra as [| e rest IH]; intros written; simpl.
  - by rewrite app_nil_r.
  - change (render_change (added_record e) fps) with (Ok (Some (new_line e))).
    rewrite IH. by rewrite <- app_assoc.
Qed.

(** X12.  Edits appended to a list are each reported by one line
    [New<TAB>record_in<TAB>TC<TAB>magenta<TAB>Clip added (clip)<TAB>1],
    in order, and nothing else is written; edits dropped from the end of
    a list are not reported at all.  Neither case raises. *)
Theorem appended_and_dropped_edits edits extra fps :
  compare_edls edits (edits ++ extra) fps
  = Ok ((unchanged_record <$> edits) ++ (added_record <$> extra))
  ∧ output_change_list
      ((unchanged_record <$> edits) ++ (added_record <$> extra)) fps
    = (new_line <$> extra, None)
  ∧ compare_edls (edits ++ extra) edits fps
    = Ok ((unchanged_record <$> edits) ++ (deleted_record <$> extra))
  ∧ output_change_list
      ((unchanged_record <$> edits) ++ (deleted_record <$> extra)) fps
    = ([], None).
Proof.
  split_and!.
  - rewrite <- (app_nil_r edits) at 1.
    rewrite compare_edls_concat by done.
    by rewrite compare_edls_same_list, compare_edls_nil_new.
  - unfold output_change_list. rewrite write_changes_app.
    fold (output_change_list (unchanged_record <$> edits) fps).
    rewrite output_unchanged_records. apply output_added_records.
  - rewrite <- (app_nil_r edits) at 2.
    rewrite compare_edls_concat by done.
    by rewrite compare_edls_same_list, compare_edls_old_nil.
  - apply write_changes_all_skipped, Forall_app. split; apply Forall_forall.
    + by intros c (e & -> & _)%list_elem_of_fmap.
    + by intros c (e & -> & _)%list_elem_of_fmap.
Qed.

End pipeline_extra.

(** ** Parser: one edit per event line *)

Section parser_extra.

Implicit Types (lines : list string) (edits : list Edit).

Lemma parse_iter_fields lines i raw :
  lines !! i = Some raw →
  edit_fields <$> parse_iter lines [] i = omap line_fields [raw].
Proof.
  intros Hl. unfold parse_iter, line_fields. rewrite Hl. simpl.
  destruct (Py.match_event_number (Py.strip raw)); [| done].
  by destruct (Py.split (Py.strip raw))
    as [| ? [| ? [| ? [| ? [| ? [| ? [| ? [| ? ?]]]]]]]].
Qed.

Lemma parse_prefix_fields lines k :
  (k ≤ length lines)%nat →
  edit_fields <$> foldl (parse_iter lines) [] (seq 0 k)
  = omap line_fields (take k lines).
Proof.
  induction k as [| k IH]; intros Hk; [done |].
  rewrite seq_S, foldl_app. simpl.
  destruct (lookup_lt_is_Some_2 lines k) as [raw Hraw]; [lia |].
  rewrite parse_iter_acc, fmap_app, IH by lia.
  rewrite (take_S_r _ _ _ Hraw), omap_app.
  by rewrite (parse_iter_fields lines k raw Hraw).
Qed.

Lemma parse_lines_fields self lines :
  edit_fields <$> parse_lines self lines = omap line_fields lines.
Proof.
  unfold parse_lines. rewrite parse_prefix_fields by done.
  by rewrite firstn_all.
Qed.

Lemma length_omap_le {A B : Type} (f : A → option B) (l : list A) :
  (length (omap f l) ≤ length l)%nat.
Proof.
  induction l as [| x r IH]; [done |].
  change (omap f (x :: r))
    with (match f x with Some y => y :: omap f r | None => omap f r end).
  destruct (f x); simpl; lia.
Qed.

(** X13.  The parser returns one edit for each event line (a line that,
    stripped, starts with three digits and has at least eight fields) and
    none for any other line, in file order; the six positional fields of
    an edit come from its own line alone, so the look-ahead for the clip
    name consumes no line and there are never more edits than lines. *)
Theorem parse_one_edit_per_event_line self fs file_path content :
  fs !! file_path = Some content →
  ∃ edits,
    parse self fs file_path = Ok edits
    ∧ edit_fields <$> edits = omap line_fields (readlines content)
    ∧ (length edits ≤ length (readlines content))%nat.
Proof.
  intros Hfs. unfold parse. rewrite Hfs. eexists. split; [done |].
  pose proof (parse_lines_fields self (readlines content)) as H.
  split; [done |].
  rewrite <- (length_fmap edit_fields), H. apply length_omap_le.
Qed.

Lemma parse_one_edit_per_event_line_witness :
  let content :=
    "001  AX V C 01:00:00:00 01:00:10:00 02:00:00:00 02:00:10:00
002  BX V C 03:00:00:00 03:00:10:00 02:00:10:00 02:00:20:00
* FROM CLIP NAME: b.mov
M2   AX 024.0 01:00:00:00" in
  ∃ edits,
    parse (mkEDLParser 24) {[ "in.edl" := content ]} "in.edl" = Ok edits
    ∧ edit_fields <$> edits = omap line_fields (readlines content)
    ∧ (length edits ≤ length (readlines content))%nat.
Proof.
  intros content.
  apply (parse_one_edit_per_event_line (mkEDLParser 24)
           {[ "in.edl" := content ]} "in.edl" content).
  reflexivity.
Defined.

Lemma no_space_app s t :
  no_space s = true → no_space t = true → no_space (s +:+ t) = true.
Proof.
  induction s as [| c r IH]; [done |]. simpl.
  intros [Hc Hr]%andb_true_iff Ht. by rewrite Hc, IH.
Qed.

Lemma str_app_nonempty s c : s +:+ String c "" ≠ "".
Proof. by destruct s. Qed.

Lemma split_go_fields s : ∀ cur,
  no_space cur = true → Forall is_field (Py.split_go cur s).
Proof.
  induction s as [| c r IH]; intros cur Hcur; simpl.
  - case_decide; [constructor | by repeat constructor].
  - destruct (Py.is_space c) eqn:Hc.
    + case_decide; [by apply IH |].
      constructor; [done | by apply IH].
    + apply IH, no_space_app; [done |]. simpl. by rewrite Hc.
Qed.

(** The first field contains what has been scanned of it. *)
Lemma split_go_first s : ∀ cur,
  cur ≠ "" → ∃ t rest, Py.split_go cur s = (cur +:+ t) :: rest.
Proof.
  induction s as [| c r IH]; intros cur Hcur; simpl.
  - rewrite decide_False by done. exists "", []. by rewrite str_app_nil_r.
  - destruct (Py.is_space c).
    + rewrite decide_False by done. exists "". rewrite str_app_nil_r. eauto.
    + destruct (IH (cur +:+ String c "")) as (t & rest & ->);
        [apply str_app_nonempty |].
      exists (String c t), rest. by rewrite str_app_assoc.
Qed.

Lemma split_go_nonspace cur c r :
  Py.is_space c = false →
  Py.split_go cur (String c r) = Py.split_go (cur +:+ String c "") r.
Proof. intros Hc. simpl. by rewrite Hc. Qed.

Lemma split_event_number line :
  Py.match_event_number line = true →
  ∃ p0 rest, Py.split line = p0 :: rest ∧ Py.match_event_number p0 = true.
Proof.
  destruct line as [| a [| b [| c r]]]; try discriminate.
  unfold Py.match_event_number at 1.
  intros [[Ha Hb]%andb_true_iff Hc]%andb_true_iff.
  unfold Py.split.
  rewrite !split_go_nonspace by by apply is_digit_not_space.
  change (("" +:+ String a "") +:+ String b "" +:+ String c "")
    with (String a (String b (String c ""))).
  change ((("" +:+ String a "") +:+ String b "") +:+ String c "")
    with (String a (String b (String c ""))).
  destruct (split_go_first r (String a (String b (String c ""))))
    as (t & rest & ->); [done |].
  exists (String a (String b (String c t))), rest. split; [done |].
  simpl. by rewrite Ha, Hb, Hc.
Qed.

Lemma line_fields_fields raw p0 p1 p4 p5 p6 p7 :
  line_fields raw = Some (p0, p1, p4, p5, p6, p7) →
  Py.match_event_number p0 = true
  ∧ Forall is_field [p0; p1; p4; p5; p6; p7].
Proof.
  unfold line_fields.
  destruct (Py.match_event_number (Py.strip raw)) eqn:Hm; [| discriminate].
  pose proof (split_go_fields (Py.strip raw) "" eq_refl) as Hall.
  destruct (split_event_number _ Hm) as (q0 & rest & Hs & Hq0).
  fold (Py.split (Py.strip raw)) in Hall. rewrite Hs in Hall |- *.
  destruct rest as [| q1 [| q2 [| q3 [| q4 [| q5 [| q6 [| q7 ?]]]]]]];
    try discriminate.
  intros [= <- <- <- <- <- <-]. split; [done |].
  repeat match goal with
         | H : Forall _ (_ :: _) |- _ => apply Forall_cons in H as [? H]
         end.
  repeat (constructor; [assumption |]). constructor.
Qed.

Lemma dot_star_lacks_lf s : lacks "010" (Py.dot_star s) = true.
Proof.
  induction s as [| c r IH]; [done |]. simpl.
  destruct (Ascii.eqb c "010") eqn:Hc; [done |]. simpl. by rewrite Hc.
Qed.

Lemma search_literal_dot_plus_lacks_lf lit s g :
  Py.search_literal_dot_plus lit s = Some g →
  g ≠ "" ∧ lacks "010" g = true.
Proof.
  induction s as [| c r IH]; simpl.
  - destruct (Py.strip_prefix lit "") as [rest |]; [| discriminate].
    destruct (Py.dot_star rest) eqn:E; [discriminate |].
    intros [= <-]. split; [done |]. rewrite <- E. apply dot_star_lacks_lf.
  - destruct (Py.strip_prefix lit (String c r)) as [rest |]; [| exact IH].
    destruct (Py.dot_star rest) eqn:E; [exact IH |].
    intros [= <-]. split; [done |]. rewrite <- E. apply dot_star_lacks_lf.
Qed.

Lemma lookahead_clip_name_lacks_lf lines i :
  lacks "010" (lookahead_clip_name lines i) = true.
Proof.
  unfold lookahead_clip_name. destruct (lines !! (i + 1)%nat); [| done].
  destruct (Py.search_literal_dot_plus _ _) eqn:E; [| done].
  by apply search_literal_dot_plus_lacks_lf in E as [_ ?].
Qed.

Lemma parse_lines_clip_names lines k :
  Forall (λ e, lacks "010" (clip_name e) = true)
    (foldl (parse_iter lines) [] (seq 0 k)).
Proof.
  induction k as [| k IH]; [constructor |].
  rewrite seq_S, foldl_app. simpl. rewrite parse_iter_acc.
  apply Forall_app. split; [done |]. unfold parse_iter.
  destruct (lines !! k) as [raw |]; [| constructor].
  destruct (Py.match_event_number (Py.strip raw)); [| constructor].
  destruct (Py.split (Py.strip raw))
    as [| ? [| ? [| ? [| ? [| ? [| ? [| ? [| ? ?]]]]]]]]; try constructor;
    [| constructor].
  apply lookahead_clip_name_lacks_lf.
Qed.

(** X14.  Every edit the parser returns has an event number that starts
    with three digits, its six positional fields are non-empty and free
    of whitespace, and its clip name holds no line feed.  Nothing more is
    checked: the timecode fields need not be timecodes. *)
Theorem parsed_edit_fields self lines e :
  e ∈ parse_lines self lines →
  Py.match_event_number (event_num e) = true
  ∧ Forall is_field [event_num e; reel e; source_in e; source_out e;
                     record_in e; record_out e]
  ∧ lacks "010" (clip_name e) = true.
Proof.
  intros He. split_and!.
  - assert (edit_fields e ∈ omap line_fields lines) as Hf.
    { rewrite <- (parse_lines_fields self). by apply list_elem_of_fmap_2. }
    apply list_elem_of_omap in Hf as (raw & _ & Hraw).
    by apply line_fields_fields in Hraw as [? _].
  - assert (edit_fields e ∈ omap line_fields lines) as Hf.
    { rewrite <- (parse_lines_fields self). by apply list_elem_of_fmap_2. }
    apply list_elem_of_omap in Hf as (raw & _ & Hraw).
    by apply line_fields_fields in Hraw as [_ ?].
  - pose proof (parse_lines_clip_names lines (length lines)) as Hall.
    rewrite Forall_forall in Hall. by apply Hall.
Qed.

Lemma parsed_edit_fields_witness :
  let e := mkEdit "001" "AX" "not" "a" "time" "code" "" in
  e ∈ parse_lines (mkEDLParser 24) ["001 AX V C not a time code"]
  ∧ Py.match_event_number (event_num e) = true
  ∧ Forall is_field [event_num e; reel e; source_in e; source_out e;
                     record_in e; record_out e]
  ∧ lacks "010" (clip_name e) = true.
Proof.
  intros e.
  assert (e ∈ parse_lines (mkEDLParser 24) ["001 AX V C not a time code"])
    as He by (change (e ∈ [e]); constructor).
  split; [exact He |]. exact (parsed_edit_fields _ _ e He).
Defined.

End parser_extra.

(** ** The program *)

Section main_extra.

Implicit Types (fs : gmap string string) (argv : list string).







End main_extra.
